(** * Interview session lifecycle: state machine, engines, store, orchestrator

    A shallow embedding of the interview module
    (domain/interview-transitions.ts, services/*.service.ts,
    domain/interview-session.entity.ts, infrastructure/in-memory.repository.ts
    and application/interview-orchestrator.ts) together with the properties
    of its specification.

    Conventions.
    - A JavaScript [number] that holds a count, an index or a time stamp in
      milliseconds is a [Z].  A [number] is a double: its sums and
      differences are those of [Z] as long as operands and results are
      safe integers ([safe_integer], at most 2^53 - 1 in magnitude), which
      is so for every index and count the orchestrator works with.
    - [new Date()] and [Date.now()] read a clock; every operation takes the
      instant [now] at which it runs, and all time stamps taken during one
      call are that instant.
    - The repository keeps references to session objects.  Every reference
      the orchestrator works on comes from [getById] within the same call, so
      a mutation through the reference is a mutation of the stored entry:
      the mutated object is written back under the key it was loaded from,
      also when the call throws afterwards. *)

From stdpp Require Import gmap strings list fin_maps.
From Stdlib Require Import ZArith Lia QArith.

#[local] Open Scope string_scope.
#[local] Open Scope Z_scope.

(** ** Domain enumerations *)

(** Modelled from the spec: domain/interview-state.ts is not among the
    sources; the nine states are those of the specification's section 4.1. *)
Inductive InterviewState :=
| INTRO | QUESTION | RECORDING | PROCESSING | MICRO_FEEDBACK
| CHECKPOINT | PAUSED | COMPLETED | ERROR.

(** Modelled from the spec: domain/interview-events.ts is not among the
    sources; the nine events are those of the specification's section 4.1. *)
Inductive InterviewEvent :=
| INTRO_DONE | START_RECORDING | ANSWER_SUBMITTED | PROCESSING_DONE
| FEEDBACK_ACK | CHECKPOINT_ACK | COMPLETE_INTERVIEW | PAUSE | RESUME.

#[global] Instance InterviewState_eq_dec : EqDecision InterviewState.
Proof. solve_decision. Defined.

#[global] Instance InterviewEvent_eq_dec : EqDecision InterviewEvent.
Proof. solve_decision. Defined.

(** ** Errors *)

(** The three messages an [InvalidTransitionError] is built with. *)
Inductive TransitionMessage :=
| CannotTransition (currentState : InterviewState) (event : InterviewEvent)
| CannotAcknowledge (currentState : InterviewState)
| CannotContinue (currentState : InterviewState).

Inductive Error :=
| InterviewNotFoundError (sessionId : string)
| InvalidTransitionError (message : TransitionMessage)
| CannotResumeError
| NoMoreQuestions
| NoNextState (currentState : InterviewState) (event : InterviewEvent)
| TypeError.

Inductive result (A : Type) :=
| Ok (a : A)
| Err (e : Error).
Arguments Ok {A} a.
Arguments Err {A} e.

(** ** Transition table (domain/interview-transitions.ts) *)

Definition INTERVIEW_STATE_TRANSITIONS (s : InterviewState)
  : list (InterviewEvent * InterviewState) :=
  match s with
  | INTRO => [(INTRO_DONE, QUESTION)]
  | QUESTION =>
      [(START_RECORDING, RECORDING); (COMPLETE_INTERVIEW, COMPLETED);
       (PAUSE, PAUSED)]
  | RECORDING => [(ANSWER_SUBMITTED, PROCESSING)]
  | PROCESSING => [(PROCESSING_DONE, MICRO_FEEDBACK)]
  | MICRO_FEEDBACK =>
      [(FEEDBACK_ACK, QUESTION); (COMPLETE_INTERVIEW, COMPLETED);
       (PAUSE, PAUSED)]
  | CHECKPOINT => [(CHECKPOINT_ACK, QUESTION); (PAUSE, PAUSED)]
  | COMPLETED => []
  | ERROR => []
  | PAUSED => [(RESUME, QUESTION)]
  end.

(** [validTransitions[event]]: the value stored under a key of the object. *)
Fixpoint entry (event : InterviewEvent)
  (validTransitions : list (InterviewEvent * InterviewState))
  : option InterviewState :=
  match validTransitions with
  | [] => None
  | (e, target) :: rest =>
      if decide (e = event) then Some target else entry event rest
  end.

(** ** State manager (services/state-manager.service.ts) *)

Module StateManager.

Definition canTransition (currentState : InterviewState)
  (event : InterviewEvent) : bool :=
  let validEvents := INTERVIEW_STATE_TRANSITIONS currentState in
  bool_decide (event ∈ validEvents.*1).

Definition assertTransition (currentState : InterviewState)
  (event : InterviewEvent) : result unit :=
  if negb (canTransition currentState event)
  then Err (InvalidTransitionError (CannotTransition currentState event))
  else Ok tt.

Definition transition (currentState : InterviewState)
  (event : InterviewEvent) : result InterviewState :=
  match assertTransition currentState event with
  | Err e => Err e
  | Ok _ =>
      let validTransitions := INTERVIEW_STATE_TRANSITIONS currentState in
      match entry event validTransitions with
      | None => Err (NoNextState currentState event)
      | Some nextState => Ok nextState
      end
  end.

Definition getValidEvents (currentState : InterviewState)
  : list InterviewEvent :=
  (INTERVIEW_STATE_TRANSITIONS currentState).*1.

End StateManager.

(** ** Questions (services/question-engine.service.ts) *)

Inductive Category := TECHNICAL | BEHAVIORAL | PROBLEM_SOLVING | COMMUNICATION.
Inductive Difficulty := EASY | MEDIUM | HARD.

Record Question := mkQuestion {
  q_id : string;
  q_text : string;
  q_category : Category;
  q_difficulty : Difficulty;
  q_expectedSignals : list string;
  q_estimatedDuration : Z
}.

Definition MOCK_QUESTIONS : list Question := [
  mkQuestion "q1"
    "¿Puedes contarme sobre tu experiencia más reciente en desarrollo de software?"
    BEHAVIORAL EASY ["experience"; "achievements"; "learnings"] 120;
  mkQuestion "q2"
    "¿Cuál fue el mayor desafío técnico que enfrentaste en tu último proyecto?"
    TECHNICAL MEDIUM ["problem_solving"; "technical_depth"; "impact"] 150;
  mkQuestion "q3"
    "¿Cómo manejas situaciones de alta presión o deadlines ajustados?"
    BEHAVIORAL MEDIUM ["stress_management"; "prioritization"; "communication"]
    120;
  mkQuestion "q4"
    "Describe un proyecto donde tuviste que aprender una tecnología nueva. ¿Cómo lo abordaste?"
    PROBLEM_SOLVING MEDIUM ["learning_ability"; "initiative"; "resourcefulness"]
    150;
  mkQuestion "q5"
    "¿Qué herramientas y metodologías usas para garantizar la calidad del código?"
    TECHNICAL MEDIUM ["testing"; "code_quality"; "best_practices"] 120;
  mkQuestion "q6"
    "Cuéntame sobre una vez que tuviste que dar feedback constructivo a un compañero de equipo."
    COMMUNICATION HARD ["empathy"; "communication"; "leadership"] 150;
  mkQuestion "q7"
    "¿Cómo priorizas tareas cuando tienes múltiples proyectos urgentes?"
    PROBLEM_SOLVING MEDIUM
    ["prioritization"; "decision_making"; "impact_awareness"] 120;
  mkQuestion "q8"
    "Describe tu experiencia con sistemas distribuidos o arquitecturas de microservicios."
    TECHNICAL HARD ["scalability"; "system_design"; "trade_offs"] 180;
  mkQuestion "q9"
    "¿Qué te motiva a continuar creciendo como profesional?"
    BEHAVIORAL EASY ["motivation"; "career_goals"; "passion"] 120;
  mkQuestion "q10"
    "¿Tienes alguna pregunta para mí sobre la empresa o el rol?"
    COMMUNICATION EASY ["curiosity"; "engagement"; "preparation"] 120
].

Module QuestionEngine.

(** [MOCK_QUESTIONS[questionIndex]] is [undefined] ([None]) below 0. *)
Definition getQuestion (questionIndex : Z) : result (option Question) :=
  if questionIndex >=? Z.of_nat (length MOCK_QUESTIONS)
  then Err NoMoreQuestions
  else Ok (if questionIndex <? 0 then None
           else MOCK_QUESTIONS !! Z.to_nat questionIndex).

Definition getTotalQuestions : Z := Z.of_nat (length MOCK_QUESTIONS).

Definition hasMoreQuestions (questionIndex : Z) : bool :=
  questionIndex <? Z.of_nat (length MOCK_QUESTIONS).

End QuestionEngine.

(** ** Feedback (services/feedback-engine.service.ts) *)

Inductive FeedbackFlag :=
| TOO_SHORT | TOO_LONG | VAGUE | EXCELLENT | NEEDS_CLARIFICATION | OFF_TOPIC.

Record Feedback := mkFeedback {
  message : string;
  score : Z;
  strengths : list string;
  improvements : list string;
  flags : list FeedbackFlag;
  partial : bool
}.

Module FeedbackEngine.

Definition messages : list string := [
  "Good answer! Clear and well-articulated.";
  "Nice explanation! I appreciate the detail.";
  "Great response! You covered the key points.";
  "Solid answer! Good use of examples.";
  "Excellent! Very comprehensive response."
].

(** [messages[i]], the empty string standing for [undefined]. *)
Definition message_at (i : Z) : string :=
  if i <? 0 then "" else default "" (messages !! Z.to_nat i).

Definition generateMockFeedback (answerDuration : Z) : Feedback :=
  let isShort := answerDuration <? 30000 in
  let isLong := answerDuration >? 300000 in
  let isOptimal := (answerDuration >=? 60000) && (answerDuration <=? 180000) in
  let '(score, strengths, improvements, flags) :=
    if isShort then
      (2, [], ["Try to elaborate more on your answer";
               "Provide specific examples to illustrate your points"],
       [TOO_SHORT])
    else if isLong then
      (3, [], ["Try to be more concise";
               "Focus on the most relevant points"], [TOO_LONG])
    else if isOptimal then
      (4, ["Good answer length"; "Well-structured response"], [], [])
    else (3, [], [], []) in
  let message :=
    message_at (Z.min (score - 1) (Z.of_nat (length messages) - 1)) in
  mkFeedback message score strengths improvements flags true.

End FeedbackEngine.

(** ** Adaptation engine (services/adaptation-engine.service.ts) *)

Module Action.
Inductive t := NEXT_QUESTION | CHECKPOINT | COMPLETE.
End Action.

#[global] Instance Action_eq_dec : EqDecision Action.t.
Proof. solve_decision. Defined.

Inductive Reason :=
| AllQuestionsCompleted
| PeriodicCheckpoint (answeredQuestions : Z)
| ContinueToNextQuestion.

Record AdaptationDecision := mkDecision {
  action : Action.t;
  reason : Reason;
  confidence : Q
}.

Module AdaptationEngine.

(** [%] is JavaScript's remainder, [Z.rem].  The third rule of the source
    (a low score) has an empty body, so [feedback] is read and not used.
    [totalQuestions - 1] and [questionIndex + 1] are computed on doubles
    in the source; they are the differences and sums of [Z] written here
    when both arguments are safe integers, and the properties of [decide]
    are stated for such arguments. *)
Definition decide (questionIndex totalQuestions : Z)
  (feedback : option Feedback) : AdaptationDecision :=
  if questionIndex >=? totalQuestions - 1 then
    mkDecision Action.COMPLETE AllQuestionsCompleted 1%Q
  else
    let answeredQuestions := questionIndex + 1 in
    if (questionIndex >? 0) && (Z.rem answeredQuestions 5 =? 0) then
      mkDecision Action.CHECKPOINT (PeriodicCheckpoint answeredQuestions)
        (9 # 10)%Q
    else
      mkDecision Action.NEXT_QUESTION ContinueToNextQuestion (95 # 100)%Q.

Definition shouldActivateCheckpoint (questionIndex totalQuestions : Z)
  (feedback : option Feedback) : bool :=
  bool_decide (action (decide questionIndex totalQuestions feedback)
               = Action.CHECKPOINT).

Definition shouldComplete (questionIndex totalQuestions : Z)
  (feedback : option Feedback) : bool :=
  bool_decide (action (decide questionIndex totalQuestions feedback)
               = Action.COMPLETE).

End AdaptationEngine.

(** ** Session entity (domain/interview-session.entity.ts) *)

Inductive AnswerStatus :=
| ANSWER_PENDING | ANSWER_PROCESSING | ANSWER_COMPLETED | ANSWER_FAILED.

Record Answer := mkAnswer {
  a_id : string;
  a_interviewId : string;
  a_questionId : string;
  a_audioUrl : string;
  a_durationMs : Z;
  a_status : AnswerStatus;
  a_createdAt : Z
}.

Record Checkpoint := mkCheckpoint {
  c_id : string;
  c_interviewId : string;
  c_questionIndex : Z;
  c_score : Q;
  c_message : string;
  c_insights : list string;
  c_createdAt : Z
}.

(** [nextAction] is the property the orchestrator attaches to the object
    ([(session as any).nextAction]); [None] is [undefined]. *)
Record Session := mkSession {
  id : string;
  userId : string;
  roleId : string;
  state : InterviewState;
  previousState : option InterviewState;
  currentQuestionIndex : Z;
  askedQuestions : list string;
  totalQuestions : Z;
  lastFeedback : option Feedback;
  confidenceTrend : Q;
  checkpointHistory : list Checkpoint;
  answers : list Answer;
  blueprintId : string;
  createdAt : Z;
  updatedAt : Z;
  lastHeartbeat : Z;
  completedAt : option Z;
  nextAction : option Action.t
}.

Definition set_state (v : InterviewState) (s : Session) : Session :=
  mkSession (id s) (userId s) (roleId s) v (previousState s)
    (currentQuestionIndex s) (askedQuestions s) (totalQuestions s)
    (lastFeedback s) (confidenceTrend s) (checkpointHistory s) (answers s)
    (blueprintId s) (createdAt s) (updatedAt s) (lastHeartbeat s)
    (completedAt s) (nextAction s).

Definition set_previousState (v : option InterviewState) (s : Session)
  : Session :=
  mkSession (id s) (userId s) (roleId s) (state s) v
    (currentQuestionIndex s) (askedQuestions s) (totalQuestions s)
    (lastFeedback s) (confidenceTrend s) (checkpointHistory s) (answers s)
    (blueprintId s) (createdAt s) (updatedAt s) (lastHeartbeat s)
    (completedAt s) (nextAction s).

Definition set_currentQuestionIndex (v : Z) (s : Session) : Session :=
  mkSession (id s) (userId s) (roleId s) (state s) (previousState s)
    v (askedQuestions s) (totalQuestions s)
    (lastFeedback s) (confidenceTrend s) (checkpointHistory s) (answers s)
    (blueprintId s) (createdAt s) (updatedAt s) (lastHeartbeat s)
    (completedAt s) (nextAction s).

Definition set_askedQuestions (v : list string) (s : Session) : Session :=
  mkSession (id s) (userId s) (roleId s) (state s) (previousState s)
    (currentQuestionIndex s) v (totalQuestions s)
    (lastFeedback s) (confidenceTrend s) (checkpointHistory s) (answers s)
    (blueprintId s) (createdAt s) (updatedAt s) (lastHeartbeat s)
    (completedAt s) (nextAction s).

Definition set_lastFeedback (v : option Feedback) (s : Session) : Session :=
  mkSession (id s) (userId s) (roleId s) (state s) (previousState s)
    (currentQuestionIndex s) (askedQuestions s) (totalQuestions s)
    v (confidenceTrend s) (checkpointHistory s) (answers s)
    (blueprintId s) (createdAt s) (updatedAt s) (lastHeartbeat s)
    (completedAt s) (nextAction s).

Definition set_checkpointHistory (v : list Checkpoint) (s : Session)
  : Session :=
  mkSession (id s) (userId s) (roleId s) (state s) (previousState s)
    (currentQuestionIndex s) (askedQuestions s) (totalQuestions s)
    (lastFeedback s) (confidenceTrend s) v (answers s)
    (blueprintId s) (createdAt s) (updatedAt s) (lastHeartbeat s)
    (completedAt s) (nextAction s).

Definition set_answers (v : list Answer) (s : Session) : Session :=
  mkSession (id s) (userId s) (roleId s) (state s) (previousState s)
    (currentQuestionIndex s) (askedQuestions s) (totalQuestions s)
    (lastFeedback s) (confidenceTrend s) (checkpointHistory s) v
    (blueprintId s) (createdAt s) (updatedAt s) (lastHeartbeat s)
    (completedAt s) (nextAction s).

Definition set_updatedAt (v : Z) (s : Session) : Session :=
  mkSession (id s) (userId s) (roleId s) (state s) (previousState s)
    (currentQuestionIndex s) (askedQuestions s) (totalQuestions s)
    (lastFeedback s) (confidenceTrend s) (checkpointHistory s) (answers s)
    (blueprintId s) (createdAt s) v (lastHeartbeat s)
    (completedAt s) (nextAction s).

Definition set_lastHeartbeat (v : Z) (s : Session) : Session :=
  mkSession (id s) (userId s) (roleId s) (state s) (previousState s)
    (currentQuestionIndex s) (askedQuestions s) (totalQuestions s)
    (lastFeedback s) (confidenceTrend s) (checkpointHistory s) (answers s)
    (blueprintId s) (createdAt s) (updatedAt s) v
    (completedAt s) (nextAction s).

Definition set_completedAt (v : option Z) (s : Session) : Session :=
  mkSession (id s) (userId s) (roleId s) (state s) (previousState s)
    (currentQuestionIndex s) (askedQuestions s) (totalQuestions s)
    (lastFeedback s) (confidenceTrend s) (checkpointHistory s) (answers s)
    (blueprintId s) (createdAt s) (updatedAt s) (lastHeartbeat s)
    v (nextAction s).

Definition set_nextAction (v : option Action.t) (s : Session) : Session :=
  mkSession (id s) (userId s) (roleId s) (state s) (previousState s)
    (currentQuestionIndex s) (askedQuestions s) (totalQuestions s)
    (lastFeedback s) (confidenceTrend s) (checkpointHistory s) (answers s)
    (blueprintId s) (createdAt s) (updatedAt s) (lastHeartbeat s)
    (completedAt s) v.

Module InterviewSession.

(** The constructor with its default arguments, as [startInterview]
    calls it: eight explicit arguments, the rest defaulted. *)
Definition new (now : Z) (id userId roleId : string)
  (state : InterviewState) (previousState : option InterviewState)
  (currentQuestionIndex : Z) (askedQuestions : list string)
  (totalQuestions : Z) : Session :=
  mkSession id userId roleId state previousState currentQuestionIndex
    askedQuestions totalQuestions None 0%Q [] [] "" now now now None None.

Definition isActive (s : Session) : bool :=
  negb (bool_decide (state s ∈ [COMPLETED; ERROR])).

Definition isResumable (s : Session) : bool :=
  bool_decide (state s ∈ [PAUSED; QUESTION; MICRO_FEEDBACK; CHECKPOINT]).

(** [(now - lastHeartbeat) / 3600000 > 24], the division being exact. *)
Definition isExpired (now : Z) (s : Session) : bool :=
  now - lastHeartbeat s >? 24 * (1000 * 60 * 60).

Definition updateHeartbeat (now : Z) (s : Session) : Session :=
  set_updatedAt now (set_lastHeartbeat now s).

Definition transition (now : Z) (newState : InterviewState) (s : Session)
  : Session :=
  set_updatedAt now
    (set_state newState (set_previousState (Some (state s)) s)).

Definition addAnswer (now : Z) (answer : Answer) (s : Session) : Session :=
  set_updatedAt now (set_answers (answers s ++ [answer]) s).

Definition updateFeedback (now : Z) (feedback : Feedback) (s : Session)
  : Session :=
  set_updatedAt now (set_lastFeedback (Some feedback) s).

Definition addCheckpoint (now : Z) (checkpoint : Checkpoint) (s : Session)
  : Session :=
  set_updatedAt now
    (set_checkpointHistory (checkpointHistory s ++ [checkpoint]) s).

Definition complete (now : Z) (s : Session) : Session :=
  set_updatedAt now (set_completedAt (Some now) (set_state COMPLETED s)).

End InterviewSession.

(** ** Session store (infrastructure/in-memory.repository.ts) *)

Record Repository := mkRepository {
  interviewsById : gmap string Session;
  activeInterviewByUser : gmap string string
}.

Module InMemoryInterviewRepository.

Definition empty : Repository := mkRepository ∅ ∅.

Definition create (session : Session) (r : Repository) : Repository :=
  let byId := <[id session := session]> (interviewsById r) in
  if decide (state session ≠ COMPLETED)
  then mkRepository byId
         (<[userId session := id session]> (activeInterviewByUser r))
  else mkRepository byId (activeInterviewByUser r).

Definition getById (sessionId : string) (r : Repository) : option Session :=
  interviewsById r !! sessionId.

Definition save (now : Z) (session : Session) (r : Repository)
  : Repository :=
  let session := set_updatedAt now session in
  let byId := <[id session := session]> (interviewsById r) in
  if decide (state session = COMPLETED)
  then mkRepository byId (delete (userId session) (activeInterviewByUser r))
  else mkRepository byId
         (<[userId session := id session]> (activeInterviewByUser r)).

(** [!activeInterviewId] also holds of the empty string. *)
Definition getActiveByUserId (userId : string) (r : Repository)
  : option Session :=
  match activeInterviewByUser r !! userId with
  | None => None
  | Some activeInterviewId =>
      if decide (activeInterviewId = "") then None
      else getById activeInterviewId r
  end.

(** The stored object under [sessionId] becomes [session]: what a
    mutation through the reference obtained from [getById] amounts to. *)
Definition write_back (sessionId : string) (session : Session)
  (r : Repository) : Repository :=
  mkRepository (<[sessionId := session]> (interviewsById r))
    (activeInterviewByUser r).

Definition updateHeartbeat (now : Z) (sessionId : string) (r : Repository)
  : Repository * result unit :=
  match getById sessionId r with
  | None => (r, Err (InterviewNotFoundError sessionId))
  | Some session =>
      (write_back sessionId (set_lastHeartbeat now session) r, Ok tt)
  end.

Definition complete (now : Z) (sessionId : string) (r : Repository)
  : Repository * result unit :=
  match getById sessionId r with
  | None => (r, Err (InterviewNotFoundError sessionId))
  | Some session =>
      let session := set_completedAt (Some now) (set_state COMPLETED session) in
      let r := write_back sessionId session r in
      let r := mkRepository (interviewsById r)
                 (delete (userId session) (activeInterviewByUser r)) in
      (save now session r, Ok tt)
  end.

Definition delete (sessionId : string) (r : Repository) : Repository :=
  match getById sessionId r with
  | None => r
  | Some session =>
      let byId := base.delete sessionId (interviewsById r) in
      if decide (activeInterviewByUser r !! userId session = Some sessionId)
      then mkRepository byId
             (base.delete (userId session) (activeInterviewByUser r))
      else mkRepository byId (activeInterviewByUser r)
  end.

Definition clear (r : Repository) : Repository := empty.

End InMemoryInterviewRepository.

(** ** Screens (application/screen-mapper.ts) *)

Inductive Screen :=
| InterviewIntroScreen | QuestionScreen | RecordingScreen | ProcessingScreen
| MicroFeedbackScreen | CheckpointScreen | InterviewSummaryScreen
| ErrorScreen | PausedScreen.

Definition mapStateToScreen (state : InterviewState) : Screen :=
  match state with
  | INTRO => InterviewIntroScreen
  | QUESTION => QuestionScreen
  | RECORDING => RecordingScreen
  | PROCESSING => ProcessingScreen
  | MICRO_FEEDBACK => MicroFeedbackScreen
  | CHECKPOINT => CheckpointScreen
  | COMPLETED => InterviewSummaryScreen
  | ERROR => ErrorScreen
  | PAUSED => PausedScreen
  end.

(** ** Orchestrator (application/interview-orchestrator.ts) *)

(** The [data] argument of [next], as [submitAnswer] builds it. *)
Record EventData := mkEventData {
  answerDuration : option Z;
  audioUrl : option string;
  answerId : option string
}.

(** A quotient of two numbers, kept as the pair it is computed from. *)
Record Ratio := mkRatio { numerator : Z; denominator : Z }.

(** The shapes the [payload] object takes. *)
Inductive Payload :=
| PayloadEmpty
| PayloadQuestion (question : option Question)
| PayloadFeedback (feedback : Feedback)
| PayloadDecision (decision : AdaptationDecision)
| PayloadCheckpoint (score : Q) (progress : Ratio)
| PayloadComplete (totalQuestions : Z)
| PayloadSummary (totalQuestions : Z)
| PayloadPaused (previousState : InterviewState)
| PayloadResumed (question : option Question)
| PayloadQuestionProgress (question : option Question) (progress : Ratio)
| PayloadFeedbackProgress (feedback : option Feedback) (progress : Ratio)
| PayloadCheckpointProgress (score : Q) (progress : Ratio) (answersCount : Z).

Record OrchestratorResponse := mkResponse {
  resp_state : InterviewState;
  resp_screen : Screen;
  resp_payload : Payload
}.

(** Code that reads and mutates one session object and may throw: the
    object is threaded through, and a throw keeps the mutations made
    before it. *)
Definition Eff (A : Type) : Type := Session -> Session * result A.

Definition ret {A} (a : A) : Eff A := fun s => (s, Ok a).

Definition throw {A} (e : Error) : Eff A := fun s => (s, Err e).

Definition bind {A B} (m : Eff A) (k : A -> Eff B) : Eff B :=
  fun s =>
    match m s with
    | (s', Ok a) => k a s'
    | (s', Err e) => (s', Err e)
    end.

Definition read {A} (field : Session -> A) : Eff A := fun s => (s, Ok (field s)).

Definition mutate (f : Session -> Session) : Eff unit := fun s => (f s, Ok tt).

Definition lift {A} (r : result A) : Eff A := fun s => (s, r).

Notation "'let!' x ':=' m 'in' k" := (bind m (fun x => k))
  (at level 10, x name, m at level 100, k at level 200).
Notation "'exec' m 'then' k" := (bind m (fun _ => k))
  (at level 10, m at level 100, k at level 200).

Record StartResult := mkStartResult {
  start_id : string;
  start_state : InterviewState;
  start_currentQuestion : option Question;
  start_totalQuestions : Z;
  start_estimatedDuration : Z
}.

Record SubmitResult := mkSubmitResult {
  submit_answerId : string;
  submit_estimatedTimeMs : Z;
  submit_partialFeedback : option Feedback
}.

Record ContinueResult := mkContinueResult {
  cont_state : InterviewState;
  cont_screen : Screen;
  cont_question : option Question;
  cont_checkpoint : option Payload
}.

Inductive ResumeMessage := WelcomeBack.

Record ResumeResult := mkResumeResult {
  resume_state : InterviewState;
  resume_screen : Screen;
  resume_question : option Question;
  resume_message : ResumeMessage
}.

Record ActiveInterviewView := mkActiveInterviewView {
  view_id : string;
  view_state : InterviewState;
  view_currentQuestionIndex : Z;
  view_totalQuestions : Z;
  view_lastHeartbeat : Z;
  view_progress : Ratio
}.

Record ActiveInterview := mkActiveInterview {
  canResume : bool;
  interview : option ActiveInterviewView
}.

(** [payload.question] and [payload.feedback] of a payload object. *)
Definition payload_question (p : Payload) : option Question :=
  match p with
  | PayloadQuestion q | PayloadResumed q | PayloadQuestionProgress q _ => q
  | _ => None
  end.

Definition payload_feedback (p : Payload) : option Feedback :=
  match p with
  | PayloadFeedback f => Some f
  | PayloadFeedbackProgress f _ => f
  | _ => None
  end.

Module InterviewOrchestrator.

Import InMemoryInterviewRepository.

(** Step 2 of [next]: the table for every event but FEEDBACK_ACK, the
    current state alone for FEEDBACK_ACK. *)
Definition validate (event : InterviewEvent) : Eff unit :=
  let! st := read state in
  if decide (event ≠ FEEDBACK_ACK)
  then lift (StateManager.assertTransition st event)
  else if decide (st ≠ MICRO_FEEDBACK)
       then throw (InvalidTransitionError (CannotAcknowledge st))
       else ret tt.

(** [getQuestion(i).id]: reading [id] of [undefined] throws. *)
Definition question_id (i : Z) : Eff string :=
  let! q := lift (QuestionEngine.getQuestion i) in
  match q with
  | None => throw TypeError
  | Some q => ret (q_id q)
  end.

(** Step 3 of [next]: the [switch (event)]. *)
Definition side_effects (now : Z) (event : InterviewEvent)
  (data : option EventData) : Eff Payload :=
  match event with
  | INTRO_DONE =>
      let! i := read currentQuestionIndex in
      let! question := lift (QuestionEngine.getQuestion i) in
      ret (PayloadQuestion question)
  | START_RECORDING => ret PayloadEmpty
  | ANSWER_SUBMITTED =>
      let feedback :=
        FeedbackEngine.generateMockFeedback
          (default 60000 (data ≫= answerDuration)) in
      exec mutate (InterviewSession.updateFeedback now feedback) then
      ret (PayloadFeedback feedback)
  | PROCESSING_DONE =>
      let! i := read currentQuestionIndex in
      let! total := read totalQuestions in
      let! feedback := read lastFeedback in
      let decision := AdaptationEngine.decide i total feedback in
      exec mutate (set_nextAction (Some (action decision))) then
      ret (PayloadDecision decision)
  | FEEDBACK_ACK =>
      let! nextAction := read nextAction in
      match nextAction with
      | Some Action.CHECKPOINT =>
          let! trend := read confidenceTrend in
          let! i := read currentQuestionIndex in
          let! total := read totalQuestions in
          ret (PayloadCheckpoint trend (mkRatio i total))
      | Some Action.COMPLETE =>
          let! i := read currentQuestionIndex in
          ret (PayloadComplete (i + 1))
      | _ =>
          exec mutate (fun s =>
               set_currentQuestionIndex (currentQuestionIndex s + 1) s) then
          let! i := read currentQuestionIndex in
          let! answered := question_id (i - 1) in
          exec mutate (fun s =>
               set_askedQuestions (askedQuestions s ++ [answered]) s) then
          let! i := read currentQuestionIndex in
          let! nextQuestion := lift (QuestionEngine.getQuestion i) in
          ret (PayloadQuestion nextQuestion)
      end
  | CHECKPOINT_ACK =>
      exec mutate (fun s =>
           set_currentQuestionIndex (currentQuestionIndex s + 1) s) then
      let! i := read currentQuestionIndex in
      let! nextQuestion := lift (QuestionEngine.getQuestion i) in
      ret (PayloadQuestion nextQuestion)
  | COMPLETE_INTERVIEW =>
      exec mutate (InterviewSession.complete now) then
      let! i := read currentQuestionIndex in
      ret (PayloadSummary (i + 1))
  | PAUSE =>
      exec mutate (fun s => set_previousState (Some (state s)) s) then
      let! st := read state in
      ret (PayloadPaused st)
  | RESUME =>
      let! i := read currentQuestionIndex in
      let! question := lift (QuestionEngine.getQuestion i) in
      ret (PayloadResumed question)
  end.

(** Step 4 of [next], up to the call of [session.transition]. *)
Definition resolve_next_state (now : Z) (event : InterviewEvent)
  : Eff InterviewState :=
  if decide (event = FEEDBACK_ACK) then
    let! nextAction := read nextAction in
    match nextAction with
    | Some Action.CHECKPOINT => ret CHECKPOINT
    | Some Action.COMPLETE =>
        exec mutate (InterviewSession.complete now) then
        ret COMPLETED
    | _ => ret QUESTION
    end
  else
    let! st := read state in
    lift (StateManager.transition st event).

(** Steps 2 to 4 of [next], on the loaded session object. *)
Definition next_on_session (now : Z) (event : InterviewEvent)
  (data : option EventData) : Eff (InterviewState * Payload) :=
  exec validate event then
  let! payload := side_effects now event data in
  let! nextState := resolve_next_state now event in
  exec mutate (InterviewSession.transition now nextState) then
  ret (nextState, payload).

Definition next (now : Z) (sessionId : string) (event : InterviewEvent)
  (data : option EventData) (r : Repository)
  : Repository * result OrchestratorResponse :=
  match getById sessionId r with
  | None => (r, Err (InterviewNotFoundError sessionId))
  | Some session =>
      match next_on_session now event data session with
      | (session', Err e) => (write_back sessionId session' r, Err e)
      | (session', Ok (nextState, payload)) =>
          (save now session' (write_back sessionId session' r),
           Ok (mkResponse nextState (mapStateToScreen nextState) payload))
      end
  end.

(** [sessionId] is the identifier [crypto.randomUUID()] returns. *)
Definition startInterview (now : Z) (sessionId userId roleId : string)
  (r : Repository) : Repository * result StartResult :=
  let session :=
    InterviewSession.new now sessionId userId roleId INTRO None 0 []
      QuestionEngine.getTotalQuestions in
  let r := create session r in
  match next now sessionId INTRO_DONE None r with
  | (r, Err e) => (r, Err e)
  | (r, Ok result) =>
      (r, Ok (mkStartResult (id session) (resp_state result)
                (payload_question (resp_payload result))
                (totalQuestions session) (totalQuestions session * 120)))
  end.

(** [answerId] is the identifier [crypto.randomUUID()] returns. *)
Definition submitAnswer (now : Z) (answerId interviewId audioUrl : string)
  (durationMs : Z) (r : Repository) : Repository * result SubmitResult :=
  match getById interviewId r with
  | None => (r, Err (InterviewNotFoundError interviewId))
  | Some session =>
      let '(r, started) :=
        if decide (state session = QUESTION)
        then next now interviewId START_RECORDING None r
        else (r, Ok (mkResponse (state session)
                       (mapStateToScreen (state session)) PayloadEmpty)) in
      match started with
      | Err e => (r, Err e)
      | Ok _ =>
          match next now interviewId ANSWER_SUBMITTED
                  (Some (mkEventData (Some durationMs) (Some audioUrl)
                           (Some answerId))) r with
          | (r, Err e) => (r, Err e)
          | (r, Ok result) =>
              match next now interviewId PROCESSING_DONE None r with
              | (r, Err e) => (r, Err e)
              | (r, Ok _) =>
                  (r, Ok (mkSubmitResult answerId 2500
                            (payload_feedback (resp_payload result))))
              end
          end
      end
  end.

Definition getState (interviewId : string) (r : Repository)
  : result OrchestratorResponse :=
  match getById interviewId r with
  | None => Err (InterviewNotFoundError interviewId)
  | Some session =>
      let progress :=
        mkRatio (currentQuestionIndex session) (totalQuestions session) in
      let payload :=
        match state session with
        | QUESTION =>
            match QuestionEngine.getQuestion (currentQuestionIndex session)
            with
            | Ok q => Ok (PayloadQuestionProgress q progress)
            | Err e => Err e
            end
        | MICRO_FEEDBACK =>
            Ok (PayloadFeedbackProgress (lastFeedback session) progress)
        | CHECKPOINT =>
            Ok (PayloadCheckpointProgress (confidenceTrend session) progress
                  (currentQuestionIndex session))
        | COMPLETED => Ok (PayloadSummary (currentQuestionIndex session))
        | _ => Ok PayloadEmpty
        end in
      match payload with
      | Err e => Err e
      | Ok payload =>
          Ok (mkResponse (state session) (mapStateToScreen (state session))
                payload)
      end
  end.

Definition continue (now : Z) (interviewId : string) (r : Repository)
  : Repository * result ContinueResult :=
  match getById interviewId r with
  | None => (r, Err (InterviewNotFoundError interviewId))
  | Some session =>
      let event :=
        if decide (state session = MICRO_FEEDBACK) then Ok FEEDBACK_ACK
        else if decide (state session = CHECKPOINT) then Ok CHECKPOINT_ACK
        else Err (InvalidTransitionError (CannotContinue (state session))) in
      match event with
      | Err e => (r, Err e)
      | Ok event =>
          match next now interviewId event None r with
          | (r, Err e) => (r, Err e)
          | (r, Ok result) =>
              (r, Ok (mkContinueResult (resp_state result)
                        (resp_screen result)
                        (payload_question (resp_payload result))
                        (match resp_payload result with
                         | PayloadCheckpoint _ _ => Some (resp_payload result)
                         | _ => None
                         end)))
          end
      end
  end.

Definition pause (now : Z) (interviewId : string) (r : Repository)
  : Repository * result unit :=
  match next now interviewId PAUSE None r with
  | (r, Err e) => (r, Err e)
  | (r, Ok _) => (r, Ok tt)
  end.

Definition resume (now : Z) (interviewId : string) (r : Repository)
  : Repository * result ResumeResult :=
  match getById interviewId r with
  | None => (r, Err (InterviewNotFoundError interviewId))
  | Some session =>
      if negb (InterviewSession.isResumable session)
      then (r, Err CannotResumeError)
      else
        let session := InterviewSession.updateHeartbeat now session in
        let r := save now session (write_back interviewId session r) in
        match next now interviewId RESUME None r with
        | (r, Err e) => (r, Err e)
        | (r, Ok result) =>
            (r, Ok (mkResumeResult (resp_state result) (resp_screen result)
                      (payload_question (resp_payload result)) WelcomeBack))
        end
  end.

Definition getActiveInterview (now : Z) (userId : string) (r : Repository)
  : option ActiveInterview :=
  match getActiveByUserId userId r with
  | None => None
  | Some session =>
      let canResume :=
        InterviewSession.isResumable session
        && negb (InterviewSession.isExpired now session) in
      Some (mkActiveInterview canResume
              (if canResume
               then Some (mkActiveInterviewView (id session) (state session)
                            (currentQuestionIndex session)
                            (totalQuestions session) (lastHeartbeat session)
                            (mkRatio (currentQuestionIndex session)
                               (totalQuestions session)))
               else None))
  end.

Definition updateHeartbeat (now : Z) (interviewId : string) (r : Repository)
  : Repository * result unit :=
  InMemoryInterviewRepository.updateHeartbeat now interviewId r.

End InterviewOrchestrator.

(** ** HTTP controller (api/interview.controller.ts) *)

(** The [error] tag of an error reply. *)
Inductive ErrorTag :=
| NotFound | InvalidTransition | CannotResume | InternalServerError.

(** The [message] of a reply: a fixed text, or the message of the error
    that was caught. *)
Inductive ReplyMessage :=
| FixedMessage (text : string)
| MessageOf (e : Error).

(** The shapes of the objects the handlers send. *)
Inductive ReplyBody :=
| BodyStarted (interviewId : string) (state : InterviewState)
    (screen : Screen) (question : option Question) (totalQuestions : Z)
| BodyAnswer (state : InterviewState) (screen : Screen)
    (partialFeedback : option Feedback)
| BodyContinue (state : InterviewState) (screen : Screen)
    (question : option Question) (checkpoint : option Payload)
| BodyPaused
| BodyResumed (state : InterviewState) (screen : Screen)
    (question : option Question) (message : ResumeMessage)
| BodyState (state : InterviewState) (screen : Screen) (payload : Payload)
| BodyActive (active : ActiveInterview)
| BodyNoActive
| BodyHeartbeat
| BodyError (error : ErrorTag) (message : ReplyMessage).

Record Reply := mkReply {
  reply_code : Z;
  reply_body : ReplyBody
}.

Module InterviewController.

Import InterviewOrchestrator.

(** The identity the handlers use until authentication is wired in. *)
Definition mock_user_id : string := "mock-user-id".

(** [handleError]: the error classes carry the codes NOT_FOUND,
    INVALID_STATE and CANNOT_RESUME; plain errors carry none. *)
Definition handleError (e : Error) : Reply :=
  match e with
  | InterviewNotFoundError _ =>
      mkReply 404 (BodyError NotFound (FixedMessage "Interview not found"))
  | InvalidTransitionError _ =>
      mkReply 400 (BodyError InvalidTransition (MessageOf e))
  | CannotResumeError =>
      mkReply 400 (BodyError CannotResume (MessageOf e))
  | _ =>
      mkReply 500
        (BodyError InternalServerError
           (FixedMessage "An unexpected error occurred"))
  end.

(** [sessionId] is the identifier the orchestrator draws. *)
Definition startInterview (now : Z) (sessionId roleId : string)
  (r : Repository) : Repository * Reply :=
  let failed :=
    mkReply 500
      (BodyError InternalServerError
         (FixedMessage "Failed to start interview")) in
  match InterviewOrchestrator.startInterview now sessionId mock_user_id
          roleId r with
  | (r, Err _) => (r, failed)
  | (r, Ok result) =>
      match getState (start_id result) r with
      | Err _ => (r, failed)
      | Ok state =>
          (r, mkReply 201
                (BodyStarted (start_id result) (resp_state state)
                   (resp_screen state) (start_currentQuestion result)
                   (start_totalQuestions result)))
      end
  end.

Definition submitAnswer (now : Z) (answerId interviewId audioUrl : string)
  (durationMs : Z) (r : Repository) : Repository * Reply :=
  match InterviewOrchestrator.submitAnswer now answerId interviewId audioUrl
          durationMs r with
  | (r, Err e) => (r, handleError e)
  | (r, Ok _) =>
      match getState interviewId r with
      | Err e => (r, handleError e)
      | Ok state =>
          (r, mkReply 200
                (BodyAnswer (resp_state state) (resp_screen state)
                   (payload_feedback (resp_payload state))))
      end
  end.

Definition continue (now : Z) (interviewId : string) (r : Repository)
  : Repository * Reply :=
  match InterviewOrchestrator.continue now interviewId r with
  | (r, Err e) => (r, handleError e)
  | (r, Ok result) =>
      (r, mkReply 200
            (BodyContinue (cont_state result) (cont_screen result)
               (cont_question result) (cont_checkpoint result)))
  end.

Definition pause (now : Z) (interviewId : string) (r : Repository)
  : Repository * Reply :=
  match InterviewOrchestrator.pause now interviewId r with
  | (r, Err e) => (r, handleError e)
  | (r, Ok _) => (r, mkReply 200 BodyPaused)
  end.

Definition resume (now : Z) (interviewId : string) (r : Repository)
  : Repository * Reply :=
  match InterviewOrchestrator.resume now interviewId r with
  | (r, Err e) => (r, handleError e)
  | (r, Ok result) =>
      (r, mkReply 200
            (BodyResumed (resume_state result) (resume_screen result)
               (resume_question result) (resume_message result)))
  end.

Definition getState (interviewId : string) (r : Repository) : Reply :=
  match InterviewOrchestrator.getState interviewId r with
  | Err e => handleError e
  | Ok state =>
      mkReply 200
        (BodyState (resp_state state) (resp_screen state)
           (resp_payload state))
  end.

Definition getActiveInterview (now : Z) (r : Repository) : Reply :=
  match InterviewOrchestrator.getActiveInterview now mock_user_id r with
  | None => mkReply 200 BodyNoActive
  | Some result => mkReply 200 (BodyActive result)
  end.

Definition heartbeat (now : Z) (interviewId : string) (r : Repository)
  : Repository * Reply :=
  match InterviewOrchestrator.updateHeartbeat now interviewId r with
  | (r, Err e) => (r, handleError e)
  | (r, Ok _) => (r, mkReply 200 BodyHeartbeat)
  end.

End InterviewController.

(** ** Executions and the predicates the properties are stated with *)

(** The calls a client makes that may change the store. *)
Inductive Call :=
| StartInterview (sessionId userId roleId : string)
| Next (sessionId : string) (event : InterviewEvent) (data : option EventData)
| SubmitAnswer (answerId interviewId audioUrl : string) (durationMs : Z)
| Continue (interviewId : string)
| Pause (interviewId : string)
| Resume (interviewId : string)
| UpdateHeartbeat (interviewId : string).

Definition run (now : Z) (c : Call) (r : Repository) : Repository :=
  match c with
  | StartInterview sessionId userId roleId =>
      (InterviewOrchestrator.startInterview now sessionId userId roleId r).1
  | Next sessionId event data =>
      (InterviewOrchestrator.next now sessionId event data r).1
  | SubmitAnswer answerId interviewId audioUrl durationMs =>
      (InterviewOrchestrator.submitAnswer now answerId interviewId audioUrl
         durationMs r).1
  | Continue interviewId => (InterviewOrchestrator.continue now interviewId r).1
  | Pause interviewId => (InterviewOrchestrator.pause now interviewId r).1
  | Resume interviewId => (InterviewOrchestrator.resume now interviewId r).1
  | UpdateHeartbeat interviewId =>
      (InterviewOrchestrator.updateHeartbeat now interviewId r).1
  end.

(** The stores an orchestrator that starts with an empty repository can
    be in: any calls, at any instants, with any arguments. *)
Inductive reachable : Repository -> Prop :=
| reachable_empty : reachable InMemoryInterviewRepository.empty
| reachable_run now c r : reachable r -> reachable (run now c r).

(** What every stored session of a reachable store satisfies. *)
Record session_ok (s : Session) : Prop := mk_session_ok {
  ok_completed : state s = COMPLETED <-> completedAt s <> None;
  ok_total : totalQuestions s = QuestionEngine.getTotalQuestions;
  ok_index : 0 <= currentQuestionIndex s;
  ok_pending :
    state s = MICRO_FEEDBACK ->
    nextAction s =
      Some (action (AdaptationEngine.decide (currentQuestionIndex s)
                      (totalQuestions s) (lastFeedback s)));
  ok_checkpoint :
    state s = CHECKPOINT ->
    currentQuestionIndex s + 1 < QuestionEngine.getTotalQuestions
}.

Definition repository_ok (r : Repository) : Prop :=
  forall k s, interviewsById r !! k = Some s -> session_ok s.

(** [Number.isSafeInteger]: the integers a double holds exactly, together
    with their neighbours. *)
Definition safe_integer (n : Z) : Prop :=
  - (2 ^ 53 - 1) <= n <= 2 ^ 53 - 1.

(** The rules of the adaptation engine in the words of the specification:
    in order, first match wins, with the mathematical [mod]. *)
Definition decide_spec (questionOrdinal totalQuestions : Z) : Action.t :=
  if decide (questionOrdinal >= totalQuestions - 1) then Action.COMPLETE
  else if decide (questionOrdinal > 0 /\ (questionOrdinal + 1) mod 5 = 0)
       then Action.CHECKPOINT
       else Action.NEXT_QUESTION.

(** Two session objects that differ at most in [lastHeartbeat]. *)
Definition same_but_heartbeat (s s' : Session) : Prop :=
  id s' = id s /\ userId s' = userId s /\ roleId s' = roleId s /\
  state s' = state s /\ previousState s' = previousState s /\
  currentQuestionIndex s' = currentQuestionIndex s /\
  askedQuestions s' = askedQuestions s /\
  totalQuestions s' = totalQuestions s /\
  lastFeedback s' = lastFeedback s /\
  confidenceTrend s' = confidenceTrend s /\
  checkpointHistory s' = checkpointHistory s /\ answers s' = answers s /\
  blueprintId s' = blueprintId s /\ createdAt s' = createdAt s /\
  updatedAt s' = updatedAt s /\ completedAt s' = completedAt s /\
  nextAction s' = nextAction s.

(** The reading of "consumed once, then cleared": a successful
    FEEDBACK_ACK leaves no pending decision on the stored session. *)
Definition decision_cleared_by_ack : Prop :=
  forall now sessionId data r session r' response,
    InMemoryInterviewRepository.getById sessionId r = Some session ->
    state session = MICRO_FEEDBACK ->
    InterviewOrchestrator.next now sessionId FEEDBACK_ACK data r
      = (r', Ok response) ->
    exists session',
      InMemoryInterviewRepository.getById sessionId r' = Some session' /\
      nextAction session' = None.

(** The operations of the store that write. *)
Inductive StoreOp :=
| OpCreate (session : Session)
| OpSave (session : Session)
| OpUpdateHeartbeat (sessionId : string)
| OpComplete (sessionId : string)
| OpDelete (sessionId : string)
| OpClear.

Definition apply (now : Z) (op : StoreOp) (r : Repository) : Repository :=
  match op with
  | OpCreate session => InMemoryInterviewRepository.create session r
  | OpSave session => InMemoryInterviewRepository.save now session r
  | OpUpdateHeartbeat sessionId =>
      (InMemoryInterviewRepository.updateHeartbeat now sessionId r).1
  | OpComplete sessionId =>
      (InMemoryInterviewRepository.complete now sessionId r).1
  | OpDelete sessionId => InMemoryInterviewRepository.delete sessionId r
  | OpClear => InMemoryInterviewRepository.clear r
  end.

(** The active index maps users only to stored sessions that are not
    COMPLETED. *)
Definition index_active (r : Repository) : Prop :=
  forall u i,
    activeInterviewByUser r !! u = Some i ->
    exists s, interviewsById r !! i = Some s /\ state s <> COMPLETED.

(** Every session is stored under its own id, and an active pointer names
    a stored, not COMPLETED session of the user it is filed under. *)
Definition store_consistent (r : Repository) : Prop :=
  (forall k s, interviewsById r !! k = Some s -> id s = k) /\
  (forall u i,
     activeInterviewByUser r !! u = Some i ->
     exists s,
       interviewsById r !! i = Some s /\ userId s = u /\ state s <> COMPLETED).

(** Identifiers are not reused: [create] gets an id that is not stored,
    [save] a session whose id is not stored or is stored for its user. *)
Definition respects_ids (op : StoreOp) (r : Repository) : Prop :=
  match op with
  | OpCreate session => interviewsById r !! id session = None
  | OpSave session =>
      forall stored,
        interviewsById r !! id session = Some stored ->
        userId stored = userId session
  | _ => True
  end.

(** ** Further predicates *)

(** The errors a client can correct: the three the controller answers
    with a 4xx code. *)
Definition client_error (e : Error) : Prop :=
  match e with
  | InterviewNotFoundError _ | InvalidTransitionError _ | CannotResumeError =>
      True
  | _ => False
  end.

(** The error a call ends with, if it throws. *)
Definition failure (now : Z) (c : Call) (r : Repository) : option Error :=
  let thrown {A} (x : result A) : option Error :=
    match x with Ok _ => None | Err e => Some e end in
  match c with
  | StartInterview sessionId userId roleId =>
      thrown
        (InterviewOrchestrator.startInterview now sessionId userId roleId r).2
  | Next sessionId event data =>
      thrown (InterviewOrchestrator.next now sessionId event data r).2
  | SubmitAnswer answerId interviewId audioUrl durationMs =>
      thrown
        (InterviewOrchestrator.submitAnswer now answerId interviewId audioUrl
           durationMs r).2
  | Continue interviewId =>
      thrown (InterviewOrchestrator.continue now interviewId r).2
  | Pause interviewId =>
      thrown (InterviewOrchestrator.pause now interviewId r).2
  | Resume interviewId =>
      thrown (InterviewOrchestrator.resume now interviewId r).2
  | UpdateHeartbeat interviewId =>
      thrown (InterviewOrchestrator.updateHeartbeat now interviewId r).2
  end.

(** The session id a call is addressed to. *)
Definition target (c : Call) : string :=
  match c with
  | StartInterview sessionId _ _ => sessionId
  | Next sessionId _ _ => sessionId
  | SubmitAnswer _ interviewId _ _ => interviewId
  | Continue interviewId => interviewId
  | Pause interviewId => interviewId
  | Resume interviewId => interviewId
  | UpdateHeartbeat interviewId => interviewId
  end.

(** The invariant of the claims, with the ordinal below the size of the
    bank and the two states no stored session is in. *)
Record session_sound (s : Session) : Prop := mk_session_sound {
  sound_ok : session_ok s;
  sound_index : currentQuestionIndex s < QuestionEngine.getTotalQuestions;
  sound_not_intro : state s <> INTRO;
  sound_not_error : state s <> ERROR
}.

Definition sessions_sound (m : gmap string Session) : Prop :=
  forall k s, m !! k = Some s -> id s = k /\ session_sound s.

(** The stores the operations build from the empty one when no id is
    reused. *)
Inductive store_built : Repository -> Prop :=
| store_built_empty : store_built InMemoryInterviewRepository.empty
| store_built_apply now op r :
    store_built r -> respects_ids op r -> store_built (apply now op r).

(** A property that holds of every stored session. *)
Definition all_stored (P : Session -> Prop) (r : Repository) : Prop :=
  forall k s, interviewsById r !! k = Some s -> P s.

(** The requests the routes pass to the controller
    (api/interview.routes.ts), with the identifiers drawn while they are
    served.  A start and an answer request carry the body fields their
    handlers read.  A request to these two routes without a body, on
    which the handler's destructuring of [request.body] throws and the
    reply is a 500, is not among them. *)
Inductive Request :=
| PostStart (sessionId roleId : string)
| PostAnswer (answerId interviewId audioUrl : string) (durationMs : Z)
| GetState (interviewId : string)
| PostContinue (interviewId : string)
| PostPause (interviewId : string)
| PostResume (interviewId : string)
| GetActive
| PostHeartbeat (interviewId : string).

Definition handle (now : Z) (req : Request) (r : Repository)
  : Repository * Reply :=
  match req with
  | PostStart sessionId roleId =>
      InterviewController.startInterview now sessionId roleId r
  | PostAnswer answerId interviewId audioUrl durationMs =>
      InterviewController.submitAnswer now answerId interviewId audioUrl
        durationMs r
  | GetState interviewId => (r, InterviewController.getState interviewId r)
  | PostContinue interviewId => InterviewController.continue now interviewId r
  | PostPause interviewId => InterviewController.pause now interviewId r
  | PostResume interviewId => InterviewController.resume now interviewId r
  | GetActive => (r, InterviewController.getActiveInterview now r)
  | PostHeartbeat interviewId =>
      InterviewController.heartbeat now interviewId r
  end.

(** The session id in the path of a request, if it has one. *)
Definition addressed (req : Request) : option string :=
  match req with
  | PostStart _ _ | GetActive => None
  | PostAnswer _ interviewId _ _ => Some interviewId
  | GetState interviewId | PostContinue interviewId | PostPause interviewId
  | PostResume interviewId | PostHeartbeat interviewId => Some interviewId
  end.

(** Two session objects that differ at most in [updatedAt]. *)
Definition same_but_updatedAt (s s' : Session) : Prop :=
  set_updatedAt 0 s' = set_updatedAt 0 s.

(** ** Sample executions *)

(** An interview started at instant 0. *)
Definition sample_started : Repository :=
  run 0 (StartInterview "s1" "u1" "backend") InMemoryInterviewRepository.empty.

(** The first answer, of 90 seconds, submitted. *)
Definition sample_answered : Repository :=
  run 1 (SubmitAnswer "a1" "s1" "audio.mp3" 90000) sample_started.

(** The started interview paused, with its last heartbeat at instant 0. *)
Definition sample_paused : Repository :=
  run 2 (Pause "s1") sample_started.

(** The started interview after a COMPLETE_INTERVIEW dispatch. *)
Definition sample_completed : Repository :=
  run 3 (Next "s1" COMPLETE_INTERVIEW None) sample_started.

(** 25 hours, in milliseconds. *)
Definition a_day_later : Z := 25 * 60 * 60 * 1000.

(** A fresh session object. *)
Definition sample_session : Session :=
  InterviewSession.new 0 "s1" "u1" "backend" INTRO None 0 []
    QuestionEngine.getTotalQuestions.

(** Calls made one after the other, each at its instant. *)
Definition run_all (calls : list (Z * Call)) (r : Repository) : Repository :=
  fold_left (fun r '(now, c) => run now c r) calls r.

(** The sample interview after five answers of 90 seconds, each
    acknowledged: the fifth acknowledgement opens the checkpoint. *)
Definition sample_checkpoint : Repository :=
  run_all
    [(1, SubmitAnswer "a1" "s1" "audio.mp3" 90000); (2, Continue "s1");
     (3, SubmitAnswer "a2" "s1" "audio.mp3" 90000); (4, Continue "s1");
     (5, SubmitAnswer "a3" "s1" "audio.mp3" 90000); (6, Continue "s1");
     (7, SubmitAnswer "a4" "s1" "audio.mp3" 90000); (8, Continue "s1");
     (9, SubmitAnswer "a5" "s1" "audio.mp3" 90000); (10, Continue "s1")]
    sample_started.

(** ** Properties *)

Section StateMachine.

Lemma canTransition_entry st ev :
  StateManager.canTransition st ev
  = bool_decide (is_Some (entry ev (INTERVIEW_STATE_TRANSITIONS st))).
Proof. destruct st, ev; reflexivity. Qed.

Lemma assertTransition_absent st ev :
  entry ev (INTERVIEW_STATE_TRANSITIONS st) = None ->
  StateManager.assertTransition st ev
  = Err (InvalidTransitionError (CannotTransition st ev)).
Proof.
  intros H. unfold StateManager.assertTransition.
  rewrite canTransition_entry, H. reflexivity.
Qed.

Lemma transition_present st ev target :
  entry ev (INTERVIEW_STATE_TRANSITIONS st) = Some target ->
  StateManager.assertTransition st ev = Ok tt /\
  StateManager.transition st ev = Ok target.
Proof.
  intros H. unfold StateManager.transition, StateManager.assertTransition.
  rewrite canTransition_entry, H. split; reflexivity.
Qed.

Lemma feedback_ack_entry st :
  entry FEEDBACK_ACK (INTERVIEW_STATE_TRANSITIONS st) = None <->
  st <> MICRO_FEEDBACK.
Proof. destruct st; vm_compute; split; intros; congruence. Qed.

End StateMachine.

Section Engines.

(** C3. On safe integers, where the source's arithmetic on doubles is
    exact, [decide] is a total function of its arguments whose action
    follows the three rules in order, first match winning: COMPLETE when
    questionOrdinal >= totalQuestions - 1, else CHECKPOINT when
    questionOrdinal > 0 and (questionOrdinal + 1) mod 5 = 0, else
    NEXT_QUESTION; it does not depend on the feedback; and for ten
    questions ordinal 4 gives CHECKPOINT, 9 COMPLETE and 2 NEXT_QUESTION. *)
Theorem decide_first_match_wins (questionOrdinal totalQuestions : Z)
  (feedback feedback' : option Feedback) :
  safe_integer questionOrdinal ->
  safe_integer totalQuestions ->
  action (AdaptationEngine.decide questionOrdinal totalQuestions feedback)
  = decide_spec questionOrdinal totalQuestions /\
  AdaptationEngine.decide questionOrdinal totalQuestions feedback
  = AdaptationEngine.decide questionOrdinal totalQuestions feedback' /\
  action (AdaptationEngine.decide 4 10 feedback) = Action.CHECKPOINT /\
  action (AdaptationEngine.decide 9 10 feedback) = Action.COMPLETE /\
  action (AdaptationEngine.decide 2 10 feedback) = Action.NEXT_QUESTION.
Proof.
  intros _ _.
  split; [| repeat split; reflexivity].
  unfold AdaptationEngine.decide, decide_spec.
  rewrite Z.geb_leb, Z.gtb_ltb.
  destruct (Z.leb_spec (totalQuestions - 1) questionOrdinal) as [Hlast | Hlast].
  - rewrite decide_True by lia. reflexivity.
  - rewrite decide_False by lia.
    destruct (Z.ltb_spec 0 questionOrdinal) as [Hpos | Hpos]; cbn [andb].
    + rewrite Z.rem_mod_nonneg by lia.
      destruct (Z.eqb_spec ((questionOrdinal + 1) mod 5) 0) as [Hfive | Hfive].
      * rewrite decide_True by (split; [lia | exact Hfive]). reflexivity.
      * rewrite decide_False by (intros [_ ?]; contradiction). reflexivity.
    + rewrite decide_False by lia. reflexivity.
Qed.

(** The fifth of ten questions, after an answer without feedback. *)
Lemma decide_first_match_wins_witness :
  safe_integer 4 /\ safe_integer 10 /\
  action (AdaptationEngine.decide 4 10 None) = decide_spec 4 10 /\
  decide_spec 4 10 = Action.CHECKPOINT.
Proof.
  assert (safe_integer 4) as Hordinal by (unfold safe_integer; lia).
  assert (safe_integer 10) as Htotal by (unfold safe_integer; lia).
  destruct (decide_first_match_wins 4 10 None None Hordinal Htotal)
    as (Hrules & _).
  split; [exact Hordinal |]. split; [exact Htotal |].
  split; [exact Hrules | reflexivity].
Defined.

(** C7. The feedback generator scores an answer by its duration alone:
    below 30 s score 2 flagged TOO_SHORT; from 30 s up to 60 s and above
    180 s up to 300 s score 3 with nothing attached; from 60 s to 180 s
    score 4 with the length and structure strengths; above 300 s score 3
    flagged TOO_LONG.  The message is the one listed for the score, the
    feedback is always partial, and 90000 ms scores 4. *)
Theorem generateMockFeedback_buckets (d : Z) :
  let f := FeedbackEngine.generateMockFeedback d in
  (d < 30000 -> score f = 2 /\ flags f = [TOO_SHORT] /\ strengths f = []) /\
  (30000 <= d < 60000 \/ 180000 < d <= 300000 ->
   score f = 3 /\ flags f = [] /\ strengths f = [] /\ improvements f = []) /\
  (60000 <= d <= 180000 ->
   score f = 4 /\ flags f = [] /\ improvements f = [] /\
   strengths f = ["Good answer length"; "Well-structured response"]) /\
  (300000 < d -> score f = 3 /\ flags f = [TOO_LONG] /\ strengths f = []) /\
  FeedbackEngine.messages !! Z.to_nat (score f - 1) = Some (message f) /\
  partial f = true /\
  score (FeedbackEngine.generateMockFeedback 90000) = 4.
Proof.
  unfold FeedbackEngine.generateMockFeedback.
  rewrite Z.geb_leb, Z.gtb_ltb.
  destruct (Z.ltb_spec d 30000) as [Hshort | Hshort];
    [| destruct (Z.ltb_spec 300000 d) as [Hlong | Hlong];
       [| destruct (Z.leb_spec 60000 d) as [Hlow | Hlow];
          destruct (Z.leb_spec d 180000) as [Hhigh | Hhigh] ] ];
    cbn [andb]; cbv zeta; cbn [score flags strengths improvements partial message];
    repeat split; intros; first [reflexivity | lia].
Qed.

Lemma getQuestion_in_range i :
  0 <= i < QuestionEngine.getTotalQuestions ->
  exists q, QuestionEngine.getQuestion i = Ok (Some q).
Proof.
  intros Hi. change QuestionEngine.getTotalQuestions with 10 in Hi.
  assert (i = 0 \/ i = 1 \/ i = 2 \/ i = 3 \/ i = 4 \/
          i = 5 \/ i = 6 \/ i = 7 \/ i = 8 \/ i = 9) as Hcases by lia.
  repeat (destruct Hcases as [-> | Hcases]); try subst i;
    eexists; reflexivity.
Qed.

Lemma getQuestion_beyond i :
  QuestionEngine.getTotalQuestions <= i ->
  QuestionEngine.getQuestion i = Err NoMoreQuestions.
Proof.
  intros Hi. unfold QuestionEngine.getQuestion.
  change (Z.of_nat (length MOCK_QUESTIONS))
    with QuestionEngine.getTotalQuestions.
  rewrite Z.geb_leb. destruct (Z.leb_spec QuestionEngine.getTotalQuestions i);
    [reflexivity | lia].
Qed.

End Engines.

Section Dispatch.

Import InMemoryInterviewRepository InterviewOrchestrator.

Lemma write_back_same k s r :
  getById k r = Some s -> write_back k s r = r.
Proof.
  unfold getById, write_back. intros H. destruct r as [byId active]; cbn in *.
  f_equal. apply insert_id, H.
Qed.

Lemma getById_write_back k k' s r :
  getById k' (write_back k s r)
  = if decide (k = k') then Some s else getById k' r.
Proof. unfold getById, write_back; cbn. apply lookup_insert. Qed.

Lemma getById_save now k s r :
  getById k (save now s r)
  = if decide (id s = k) then Some (set_updatedAt now s) else getById k r.
Proof.
  unfold getById, save; cbn.
  destruct (decide (state s = COMPLETED)); cbn; apply lookup_insert.
Qed.

(** A dispatch the validation step rejects returns before the session
    object is touched. *)
Lemma next_rejected now sessionId event data r session e :
  getById sessionId r = Some session ->
  validate event session = (session, Err e) ->
  next now sessionId event data r = (r, Err e).
Proof.
  intros Hget Hval. unfold next, next_on_session, bind.
  rewrite Hget, Hval. rewrite (write_back_same _ _ _ Hget). reflexivity.
Qed.

Lemma validate_absent event session :
  entry event (INTERVIEW_STATE_TRANSITIONS (state session)) = None ->
  validate event session
  = (session,
     Err (InvalidTransitionError
            (if decide (event = FEEDBACK_ACK)
             then CannotAcknowledge (state session)
             else CannotTransition (state session) event))).
Proof.
  intros Habsent. unfold validate, bind, read, lift, throw.
  destruct (decide (event = FEEDBACK_ACK)) as [-> | Hev].
  - rewrite decide_False by (intros H; apply H; reflexivity).
    apply feedback_ack_entry in Habsent.
    rewrite decide_True by exact Habsent. reflexivity.
  - rewrite decide_True by exact Hev.
    rewrite assertTransition_absent by exact Habsent. reflexivity.
Qed.

(** C2. When the transition table has no entry for the session's state
    and the event, the dispatch fails with InvalidTransition and the
    store, hence every field of the session, is as before; the same
    dispatch made again, at any later instant, fails with the same
    error. *)
Theorem next_absent_pair_fails (now now' : Z) (sessionId : string)
  (event : InterviewEvent) (data : option EventData) (r : Repository)
  (session : Session) :
  getById sessionId r = Some session ->
  entry event (INTERVIEW_STATE_TRANSITIONS (state session)) = None ->
  exists message,
    next now sessionId event data r
    = (r, Err (InvalidTransitionError message)) /\
    getById sessionId (next now sessionId event data r).1 = Some session /\
    next now' sessionId event data (next now sessionId event data r).1
    = (r, Err (InvalidTransitionError message)).
Proof.
  intros Hget Habsent.
  pose proof (validate_absent event session Habsent) as Hval.
  eexists. rewrite (next_rejected now _ _ data _ _ _ Hget Hval). cbn [fst].
  rewrite (next_rejected now' _ _ data _ _ _ Hget Hval).
  repeat split. exact Hget.
Qed.

(** C9. [updateHeartbeat] on a stored session succeeds and changes, in
    the whole store, only the [lastHeartbeat] field of that session, which
    becomes the current instant: its other fields, [updatedAt] among them,
    the other sessions and the active index are as before; [save] on the
    contrary stores the session with [updatedAt] set to the instant. *)
Theorem updateHeartbeat_only_heartbeat (now : Z) (interviewId : string)
  (r : Repository) (session : Session) :
  getById interviewId r = Some session ->
  exists r' session',
    InterviewOrchestrator.updateHeartbeat now interviewId r = (r', Ok tt) /\
    getById interviewId r' = Some session' /\
    lastHeartbeat session' = now /\
    same_but_heartbeat session session' /\
    (forall other, other <> interviewId -> getById other r' = getById other r) /\
    activeInterviewByUser r' = activeInterviewByUser r /\
    (forall later,
       exists saved,
         getById (id session) (save later session r) = Some saved /\
         updatedAt saved = later).
Proof.
  intros Hget.
  unfold InterviewOrchestrator.updateHeartbeat,
    InMemoryInterviewRepository.updateHeartbeat.
  rewrite Hget. do 2 eexists. split; [reflexivity |].
  rewrite getById_write_back, decide_True by reflexivity.
  split; [reflexivity |]. split; [reflexivity |].
  split; [unfold same_but_heartbeat; cbn; repeat split |].
  split.
  - intros other Hother. rewrite getById_write_back.
    rewrite decide_False by congruence. reflexivity.
  - split; [reflexivity |]. intros later. eexists.
    rewrite getById_save, decide_True by reflexivity.
    split; reflexivity.
Qed.

(** C10. For a stored session in QUESTION, MICRO_FEEDBACK or CHECKPOINT,
    [resume] fails with InvalidTransition, the table allowing RESUME from
    PAUSED only, after it has set [lastHeartbeat] and [updatedAt] to the
    current instant and saved the session: the store it leaves is the
    one [save] produced, and the stored session carries both new time
    stamps. *)
Theorem resume_active_session_fails_after_save (now : Z)
  (interviewId : string) (r : Repository) (session : Session) :
  getById interviewId r = Some session ->
  state session ∈ [QUESTION; MICRO_FEEDBACK; CHECKPOINT] ->
  let touched := InterviewSession.updateHeartbeat now session in
  let r' := save now touched (write_back interviewId touched r) in
  resume now interviewId r
  = (r', Err (InvalidTransitionError
                (CannotTransition (state session) RESUME))) /\
  exists session',
    getById interviewId r' = Some session' /\
    lastHeartbeat session' = now /\ updatedAt session' = now /\
    state session' = state session /\
    (lastHeartbeat session <> now -> getById interviewId r' <> getById interviewId r).
Proof.
  intros Hget Hstate touched r'.
  assert (getById interviewId r' = Some touched) as Hget'.
  { subst r'. rewrite getById_save, getById_write_back.
    rewrite (decide_True (P := interviewId = interviewId)) by reflexivity.
    destruct (decide (id touched = interviewId)); reflexivity. }
  assert (entry RESUME (INTERVIEW_STATE_TRANSITIONS (state touched)) = None)
    as Habsent.
  { change (state touched) with (state session).
    set_unfold in Hstate.
    destruct Hstate as [-> | [-> | [-> | []]]]; reflexivity. }
  split.
  - unfold resume. rewrite Hget.
    replace (InterviewSession.isResumable session) with true.
    2:{ symmetry. apply bool_decide_eq_true. set_unfold in Hstate. set_unfold.
        tauto. }
    cbn [negb]. fold touched. fold r'.
    rewrite (next_rejected now _ _ None _ _ _ Hget'
               (validate_absent RESUME touched Habsent)).
    reflexivity.
  - exists touched. split; [exact Hget' |]. repeat split.
    intros Hchanged. rewrite Hget', Hget. intros [= Heq].
    apply Hchanged. rewrite <- Heq. reflexivity.
Qed.

(** [resume] on a session that is not resumable fails with CannotResume
    and changes nothing. *)
Lemma resume_not_resumable now interviewId r session :
  getById interviewId r = Some session ->
  InterviewSession.isResumable session = false ->
  resume now interviewId r = (r, Err CannotResumeError).
Proof. intros Hget Hres. unfold resume. rewrite Hget, Hres. reflexivity. Qed.

End Dispatch.

Section Invariant.

Import InMemoryInterviewRepository InterviewOrchestrator.

Lemma validate_present event session target :
  entry event (INTERVIEW_STATE_TRANSITIONS (state session)) = Some target ->
  validate event session = (session, Ok tt).
Proof.
  intros Hpresent. unfold validate, bind, read, lift, throw, ret.
  destruct (decide (event = FEEDBACK_ACK)) as [-> | Hev].
  - rewrite decide_False by (intros H; apply H; reflexivity).
    rewrite decide_False; [reflexivity |].
    intros Hst. apply feedback_ack_entry in Hst. congruence.
  - rewrite decide_True by exact Hev.
    rewrite (proj1 (transition_present _ _ _ Hpresent)). reflexivity.
Qed.

Lemma decide_not_complete i total feedback :
  action (AdaptationEngine.decide i total feedback) <> Action.COMPLETE ->
  i < total - 1.
Proof.
  unfold AdaptationEngine.decide. rewrite Z.geb_leb.
  destruct (Z.leb_spec (total - 1) i) as [Hle | Hlt];
    [intros Hne; contradiction Hne; reflexivity | intros _; exact Hlt].
Qed.

Ltac eval_transition :=
  repeat match goal with
    | |- context [StateManager.transition ?a ?b] =>
        let v := eval vm_compute in (StateManager.transition a b) in
        change (StateManager.transition a b) with v
    end.

Ltac solve_ok :=
  constructor; simpl;
  repeat match goal with H : state _ = _ |- _ => rewrite H in * end;
  first
    [ assumption | reflexivity | lia
    | intros Hx; discriminate Hx
    | split;
      [ intros Hx; first [discriminate Hx | discriminate]
      | intros Hx;
        first [ reflexivity
              | match goal with
                | Hc : _ <-> completedAt _ <> None |- _ =>
                    apply Hc in Hx; discriminate Hx
                end ] ] ].

(** What FEEDBACK_ACK does to a session object in MICRO_FEEDBACK that
    satisfies the invariant: no step of it throws. *)
Lemma feedback_ack_on_session now data s :
  session_ok s -> state s = MICRO_FEEDBACK ->
  match nextAction s with
  | Some Action.CHECKPOINT =>
      currentQuestionIndex s + 1 < QuestionEngine.getTotalQuestions /\
      next_on_session now FEEDBACK_ACK data s
      = (InterviewSession.transition now CHECKPOINT s,
         Ok (CHECKPOINT,
             PayloadCheckpoint (confidenceTrend s)
               (mkRatio (currentQuestionIndex s) (totalQuestions s))))
  | Some Action.COMPLETE =>
      next_on_session now FEEDBACK_ACK data s
      = (InterviewSession.transition now COMPLETED
           (InterviewSession.complete now s),
         Ok (COMPLETED, PayloadComplete (currentQuestionIndex s + 1)))
  | _ =>
      exists answered nextQuestion,
        QuestionEngine.getQuestion (currentQuestionIndex s)
        = Ok (Some answered) /\
        QuestionEngine.getQuestion (currentQuestionIndex s + 1)
        = Ok (Some nextQuestion) /\
        next_on_session now FEEDBACK_ACK data s
        = (InterviewSession.transition now QUESTION
             (set_askedQuestions (askedQuestions s ++ [q_id answered])
                (set_currentQuestionIndex (currentQuestionIndex s + 1) s)),
           Ok (QUESTION, PayloadQuestion (Some nextQuestion)))
  end.
Proof.
  intros [Hc Ht Hi Hp Hk] Hst. specialize (Hp Hst).
  assert (validate FEEDBACK_ACK s = (s, Ok tt)) as Hval.
  { apply (validate_present _ _ QUESTION). rewrite Hst. reflexivity. }
  unfold next_on_session, bind. rewrite Hval.
  unfold side_effects, resolve_next_state, bind, read, lift, throw, ret,
    mutate; simpl.
  destruct (nextAction s) as [[| |] |] eqn:Hna; simpl.
  - assert (currentQuestionIndex s < totalQuestions s - 1) as Hlt.
    { apply (decide_not_complete _ _ (lastFeedback s)). congruence. }
    destruct (getQuestion_in_range (currentQuestionIndex s)) as [answered Ha];
      [lia |].
    destruct (getQuestion_in_range (currentQuestionIndex s + 1))
      as [nextQuestion Hn]; [lia |].
    exists answered, nextQuestion. split; [exact Ha |]. split; [exact Hn |].
    unfold question_id, bind, lift, ret.
    rewrite Z.add_simpl_r, Ha. simpl. rewrite Hn. simpl. rewrite Hna.
    reflexivity.
  - split; [| rewrite Hna; reflexivity].
    assert (currentQuestionIndex s < totalQuestions s - 1) as Hlt.
    { apply (decide_not_complete _ _ (lastFeedback s)). congruence. }
    lia.
  - rewrite Hna. reflexivity.
  - discriminate Hp.
Qed.

Lemma next_on_session_ok now event data s :
  session_ok s -> session_ok (next_on_session now event data s).1.
Proof.
  intros Hok.
  destruct (entry event (INTERVIEW_STATE_TRANSITIONS (state s)))
    as [target |] eqn:Hentry.
  2:{ unfold next_on_session, bind. rewrite (validate_absent _ _ Hentry).
      exact Hok. }
  unfold next_on_session, bind. rewrite (validate_present _ _ _ Hentry).
  destruct Hok as [Hc Ht Hi Hp Hk].
  destruct event, (state s) eqn:Hst; try discriminate Hentry; clear Hentry.
  all: unfold side_effects, resolve_next_state, bind, read, lift, throw,
         ret, mutate; simpl.
  all: rewrite ?Hst; eval_transition.
  - destruct (QuestionEngine.getQuestion _); simpl; rewrite ?Hst; eval_transition; simpl; solve_ok.
  - solve_ok.
  - solve_ok.
  - solve_ok.
  - assert (session_ok s) as Hok by (constructor; rewrite ?Hst; assumption).
    pose proof (feedback_ack_on_session now data s Hok Hst) as Hack.
    unfold next_on_session, bind in Hack.
    rewrite (validate_present FEEDBACK_ACK s QUESTION) in Hack
      by (rewrite Hst; reflexivity).
    unfold side_effects, resolve_next_state, bind, read, lift, throw, ret,
      mutate in Hack; simpl in Hack.
    destruct (nextAction s) as [[| |] |] eqn:Hna.
    + destruct Hack as (answered & nextQuestion & _ & _ & ->). solve_ok.
    + destruct Hack as [Hlt ->]. solve_ok.
    + rewrite Hack. solve_ok.
    + discriminate (Hp eq_refl).
  - specialize (Hk eq_refl).
    destruct (getQuestion_in_range (currentQuestionIndex s + 1)) as [q Hq];
      [lia |].
    rewrite Hq; simpl. rewrite Hst. eval_transition. solve_ok.
  - solve_ok.
  - solve_ok.
  - solve_ok.
  - solve_ok.
  - solve_ok.
  - destruct (QuestionEngine.getQuestion _); simpl; rewrite ?Hst;
      eval_transition; simpl; solve_ok.
Qed.

Lemma set_updatedAt_ok now s : session_ok s -> session_ok (set_updatedAt now s).
Proof. intros [Hc Ht Hi Hp Hk]. constructor; assumption. Qed.

Lemma set_lastHeartbeat_ok now s :
  session_ok s -> session_ok (set_lastHeartbeat now s).
Proof. intros [Hc Ht Hi Hp Hk]. constructor; assumption. Qed.

Lemma new_session_ok now sessionId userId roleId :
  session_ok
    (InterviewSession.new now sessionId userId roleId INTRO None 0 []
       QuestionEngine.getTotalQuestions).
Proof.
  constructor; simpl; try reflexivity; try lia; try (intros Hx; discriminate Hx).
  split; intros Hx; [discriminate Hx | contradiction Hx; reflexivity].
Qed.

Lemma write_back_ok k s r :
  session_ok s -> repository_ok r -> repository_ok (write_back k s r).
Proof.
  intros Hs Hr k' s'. unfold write_back; cbn.
  rewrite lookup_insert. case_decide; [intros [= <-]; exact Hs | apply Hr].
Qed.

Lemma save_ok now s r :
  session_ok s -> repository_ok r -> repository_ok (save now s r).
Proof.
  intros Hs Hr k' s'. unfold save.
  destruct (decide (state (set_updatedAt now s) = COMPLETED)); cbn;
    rewrite lookup_insert;
    (case_decide; [intros [= <-]; apply set_updatedAt_ok, Hs | apply Hr]).
Qed.

Lemma create_ok s r :
  session_ok s -> repository_ok r -> repository_ok (create s r).
Proof.
  intros Hs Hr k' s'. unfold create.
  destruct (decide (state s <> COMPLETED)); cbn;
    rewrite lookup_insert;
    (case_decide; [intros [= <-]; exact Hs | apply Hr]).
Qed.

Lemma next_ok now sessionId event data r :
  repository_ok r -> repository_ok (next now sessionId event data r).1.
Proof.
  intros Hr. unfold next.
  destruct (getById sessionId r) as [session |] eqn:Hget; [| exact Hr].
  pose proof (next_on_session_ok now event data session (Hr _ _ Hget)) as Hs.
  destruct (next_on_session now event data session) as [s' [[st p] | e]];
    cbn [fst] in *.
  - apply save_ok, write_back_ok; assumption.
  - apply write_back_ok; assumption.
Qed.

Lemma run_ok now c r : repository_ok r -> repository_ok (run now c r).
Proof.
  intros Hr. destruct c; cbn [run].
  - unfold startInterview.
    match goal with
    | |- context [next ?n ?i ?e ?d ?r0] =>
        pose proof (next_ok n i e d r0) as Hn;
        destruct (next n i e d r0) as [r1 [res | err]]
    end; cbn [fst] in *;
      apply Hn, create_ok; [apply new_session_ok | exact Hr
                           | apply new_session_ok | exact Hr].
  - apply next_ok, Hr.
  - unfold submitAnswer.
    destruct (getById interviewId r) as [session |]; [| exact Hr].
    assert (repository_ok
              (if decide (state session = QUESTION)
               then next now interviewId START_RECORDING None r
               else (r, Ok (mkResponse (state session)
                              (mapStateToScreen (state session))
                              PayloadEmpty))).1) as Hr1.
    { case_decide; [apply next_ok, Hr | exact Hr]. }
    destruct (if decide (state session = QUESTION) then _ else _)
      as [r1 [started | err]]; cbn [fst] in *; [| exact Hr1].
    match goal with
    | |- context [next ?n ?i ?e ?d r1] =>
        pose proof (next_ok n i e d r1 Hr1) as Hr2;
        destruct (next n i e d r1) as [r2 [res | err]]
    end; cbn [fst] in *; [| exact Hr2].
    pose proof (next_ok now interviewId PROCESSING_DONE None r2 Hr2) as Hr3.
    destruct (next now interviewId PROCESSING_DONE None r2)
      as [r3 [res3 | err]]; exact Hr3.
  - unfold continue.
    destruct (getById interviewId r) as [session |]; [| exact Hr].
    repeat case_decide; try exact Hr.
    all: match goal with
         | |- context [next ?n ?i ?e ?d ?r0] =>
             pose proof (next_ok n i e d r0 Hr) as Hn;
             destruct (next n i e d r0) as [r1 [res | err]]
         end; exact Hn.
  - unfold pause.
    pose proof (next_ok now interviewId PAUSE None r Hr) as Hn.
    destruct (next now interviewId PAUSE None r) as [r1 [res | err]];
      exact Hn.
  - unfold resume.
    destruct (getById interviewId r) as [session |] eqn:Hget; [| exact Hr].
    destruct (InterviewSession.isResumable session); cbn [negb]; [| exact Hr].
    assert (session_ok (InterviewSession.updateHeartbeat now session)) as Hs.
    { apply set_updatedAt_ok, set_lastHeartbeat_ok, (Hr _ _ Hget). }
    match goal with
    | |- context [next ?n ?i ?e ?d ?r0] =>
        pose proof (next_ok n i e d r0) as Hn;
        destruct (next n i e d r0) as [r1 [res | err]]
    end; cbn [fst] in *; apply Hn, save_ok, write_back_ok; assumption.
  - unfold updateHeartbeat, InMemoryInterviewRepository.updateHeartbeat.
    destruct (getById interviewId r) as [session |] eqn:Hget; [| exact Hr].
    cbn [fst]. apply write_back_ok; [| exact Hr].
    apply set_lastHeartbeat_ok, (Hr _ _ Hget).
Qed.

Lemma reachable_ok r : reachable r -> repository_ok r.
Proof.
  induction 1 as [| now c r _ IH].
  - intros k s. unfold InMemoryInterviewRepository.empty; cbn.
    rewrite lookup_empty. discriminate.
  - apply run_ok, IH.
Qed.

End Invariant.

Section Orchestrator.

Import InMemoryInterviewRepository InterviewOrchestrator.

(** A dispatch whose steps on the session object succeed saves the
    object; the stored object is the mutated one, up to [updatedAt]
    being set once more to the same instant. *)
Lemma next_committed now sessionId event data r session s' st p :
  getById sessionId r = Some session ->
  next_on_session now event data session = (s', Ok (st, p)) ->
  let r' := save now s' (write_back sessionId s' r) in
  next now sessionId event data r
  = (r', Ok (mkResponse st (mapStateToScreen st) p)) /\
  exists stored,
    getById sessionId r' = Some stored /\
    (stored = s' \/ stored = set_updatedAt now s').
Proof.
  intros Hget Hon r'. split.
  - unfold next. rewrite Hget, Hon. reflexivity.
  - subst r'. rewrite getById_save, getById_write_back.
    rewrite (decide_True (P := sessionId = sessionId)) by reflexivity.
    case_decide; eexists; split; try reflexivity; auto.
Qed.

(** C4. In every store the orchestrator can reach from the empty one,
    by [startInterview] and any sequence of dispatches and other calls, a
    stored session is in state COMPLETED exactly when its [completedAt]
    is set. *)
Theorem completed_iff_completedAt (r : Repository) (sessionId : string)
  (session : Session) :
  reachable r ->
  getById sessionId r = Some session ->
  state session = COMPLETED <-> completedAt session <> None.
Proof.
  intros Hreach Hget. exact (ok_completed _ (reachable_ok r Hreach _ _ Hget)).
Qed.

Lemma completed_iff_completedAt_witness :
  match getById "s1" sample_completed with
  | Some session =>
      (state session = COMPLETED <-> completedAt session <> None) /\
      state session = COMPLETED
  | None => False
  end.
Proof.
  destruct (getById "s1" sample_completed) as [session |] eqn:Hget.
  - split.
    + apply (completed_iff_completedAt sample_completed "s1" session).
      * repeat constructor.
      * exact Hget.
    + vm_compute in Hget. injection Hget as <-. reflexivity.
  - vm_compute in Hget. discriminate Hget.
Defined.

(** C1. In a reachable store, FEEDBACK_ACK on a session in MICRO_FEEDBACK
    succeeds and takes its destination from the decision pending on the
    session: CHECKPOINT leads to CHECKPOINT; COMPLETE leads to COMPLETED
    with [completedAt] set; any other decision leads to QUESTION with
    the ordinal advanced by one, the id of the question just answered
    appended to the asked questions and the next question in the
    payload.  On a session in any other state it fails with
    InvalidTransition and the store is as before. *)
Theorem feedback_ack_follows_pending_decision (now : Z) (sessionId : string)
  (data : option EventData) (r : Repository) (session : Session) :
  reachable r ->
  getById sessionId r = Some session ->
  (state session <> MICRO_FEEDBACK ->
   next now sessionId FEEDBACK_ACK data r
   = (r, Err (InvalidTransitionError (CannotAcknowledge (state session))))) /\
  (state session = MICRO_FEEDBACK ->
   exists r' response stored,
     next now sessionId FEEDBACK_ACK data r = (r', Ok response) /\
     getById sessionId r' = Some stored /\
     state stored = resp_state response /\
     match nextAction session with
     | Some Action.CHECKPOINT =>
         resp_state response = CHECKPOINT /\
         currentQuestionIndex stored = currentQuestionIndex session
     | Some Action.COMPLETE =>
         resp_state response = COMPLETED /\ completedAt stored = Some now
     | _ =>
         resp_state response = QUESTION /\
         currentQuestionIndex stored = currentQuestionIndex session + 1 /\
         exists answered nextQuestion,
           QuestionEngine.getQuestion (currentQuestionIndex session)
           = Ok (Some answered) /\
           askedQuestions stored
           = (askedQuestions session ++ [q_id answered])%list /\
           QuestionEngine.getQuestion (currentQuestionIndex session + 1)
           = Ok (Some nextQuestion) /\
           resp_payload response = PayloadQuestion (Some nextQuestion)
     end).
Proof.
  intros Hreach Hget. split.
  - intros Hst. apply (next_rejected now _ _ data _ _ _ Hget).
    rewrite validate_absent by (apply feedback_ack_entry, Hst).
    rewrite decide_True by reflexivity. reflexivity.
  - intros Hst.
    pose proof (feedback_ack_on_session now data session
                  (reachable_ok r Hreach _ _ Hget) Hst) as Hack.
    destruct (nextAction session) as [[| |] |].
    1, 4: destruct Hack as (answered & nextQuestion & Ha & Hn & Hon);
          destruct (next_committed now _ _ _ _ _ _ _ _ Hget Hon)
            as [Hnext (stored & Hstored & Hsame)];
          do 3 eexists; (split; [exact Hnext |]);
          (split; [exact Hstored |]); cbn [resp_state resp_payload];
          (split; [destruct Hsame as [-> | ->]; reflexivity |]);
          (split; [reflexivity |]);
          (split; [destruct Hsame as [-> | ->]; reflexivity |]);
          exists answered, nextQuestion; (split; [exact Ha |]);
          (split; [destruct Hsame as [-> | ->]; reflexivity |]);
          (split; [exact Hn | reflexivity]).
    + destruct Hack as [_ Hon].
      destruct (next_committed now _ _ _ _ _ _ _ _ Hget Hon)
        as [Hnext (stored & Hstored & Hsame)].
      do 3 eexists. split; [exact Hnext |]. split; [exact Hstored |].
      cbn [resp_state].
      repeat split; destruct Hsame as [-> | ->]; reflexivity.
    + destruct (next_committed now _ _ _ _ _ _ _ _ Hget Hack)
        as [Hnext (stored & Hstored & Hsame)].
      do 3 eexists. split; [exact Hnext |]. split; [exact Hstored |].
      cbn [resp_state].
      repeat split; destruct Hsame as [-> | ->]; reflexivity.
Qed.

Lemma sample_answered_reachable : reachable sample_answered.
Proof. repeat constructor. Qed.

Lemma feedback_ack_follows_pending_decision_witness :
  match getById "s1" sample_answered with
  | Some session =>
      state session = MICRO_FEEDBACK /\
      exists r' response stored,
        next 4 "s1" FEEDBACK_ACK None sample_answered = (r', Ok response) /\
        getById "s1" r' = Some stored /\
        currentQuestionIndex stored = 1 /\ askedQuestions stored = ["q1"]
  | None => False
  end.
Proof.
  destruct (getById "s1" sample_answered) as [session |] eqn:Hget.
  - assert (state session = MICRO_FEEDBACK /\
            nextAction session = Some Action.NEXT_QUESTION /\
            currentQuestionIndex session = 0 /\ askedQuestions session = [])
      as (Hst & Hna & Hidx & Hasked).
    { vm_compute in Hget. injection Hget as <-. repeat split. }
    split; [exact Hst |].
    destruct (feedback_ack_follows_pending_decision 4 "s1" None
                sample_answered session sample_answered_reachable Hget)
      as [_ Hack].
    destruct (Hack Hst) as (r' & response & stored & Hnext & Hstored & _ & Hres).
    rewrite Hna in Hres.
    destruct Hres as (_ & Hi & answered & nextQuestion & Ha & Hq & _).
    exists r', response, stored.
    split; [exact Hnext |]. split; [exact Hstored |].
    rewrite Hi, Hq, Hidx, Hasked. rewrite Hidx in Ha.
    vm_compute in Ha. injection Ha as <-. split; reflexivity.
  - vm_compute in Hget. discriminate Hget.
Defined.

(** C8, as the code has it.  In a reachable store, FEEDBACK_ACK on a
    session in MICRO_FEEDBACK succeeds, reads the decision that
    PROCESSING_DONE left there and does not clear it: the stored session
    carries the same decision afterwards.  The session has left
    MICRO_FEEDBACK, so a second FEEDBACK_ACK fails with InvalidTransition
    and leaves the store as it is. *)
Theorem pending_decision_survives_ack (now now' : Z) (sessionId : string)
  (data data' : option EventData) (r : Repository) (session : Session) :
  reachable r ->
  getById sessionId r = Some session ->
  state session = MICRO_FEEDBACK ->
  exists r' response stored,
    next now sessionId FEEDBACK_ACK data r = (r', Ok response) /\
    getById sessionId r' = Some stored /\
    nextAction session
    = Some (action (AdaptationEngine.decide (currentQuestionIndex session)
                      (totalQuestions session) (lastFeedback session))) /\
    nextAction stored = nextAction session /\
    state stored <> MICRO_FEEDBACK /\
    next now' sessionId FEEDBACK_ACK data' r'
    = (r', Err (InvalidTransitionError (CannotAcknowledge (state stored)))).
Proof.
  intros Hreach Hget Hst.
  pose proof (reachable_ok r Hreach _ _ Hget) as Hok.
  pose proof (feedback_ack_on_session now data session Hok Hst) as Hack.
  assert (exists s' st p,
            next_on_session now FEEDBACK_ACK data session = (s', Ok (st, p)) /\
            nextAction s' = nextAction session /\
            state s' <> MICRO_FEEDBACK) as (s' & st & p & Hon & Hna & Hleft).
  { destruct (nextAction session) as [[| |] |] eqn:Hpending.
    2: destruct Hack as [_ Hack].
    1, 4: destruct Hack as (answered & nextQuestion & _ & _ & Hack).
    all: rewrite Hack; do 3 eexists; split; [reflexivity |];
      split; [exact Hpending | simpl; discriminate]. }
  destruct (next_committed now _ _ _ _ _ _ _ _ Hget Hon)
    as [Hnext (stored & Hstored & Hsame)].
  assert (nextAction stored = nextAction session /\
          state stored <> MICRO_FEEDBACK) as [Hna' Hleft'].
  { destruct Hsame as [-> | ->]; split; assumption. }
  do 3 eexists. split; [exact Hnext |]. split; [exact Hstored |].
  split; [exact (ok_pending _ Hok Hst) |].
  split; [exact Hna' |]. split; [exact Hleft' |].
  apply (next_rejected now' _ _ data' _ _ _ Hstored).
  rewrite validate_absent by (apply feedback_ack_entry, Hleft').
  rewrite decide_True by reflexivity. reflexivity.
Qed.

Lemma pending_decision_survives_ack_witness :
  match getById "s1" sample_answered with
  | Some session =>
      exists r' stored,
        (next 4 "s1" FEEDBACK_ACK None sample_answered).1 = r' /\
        getById "s1" r' = Some stored /\
        nextAction stored = Some Action.NEXT_QUESTION /\
        (next 5 "s1" FEEDBACK_ACK None r').1 = r'
  | None => False
  end.
Proof.
  destruct (getById "s1" sample_answered) as [session |] eqn:Hget.
  - assert (state session = MICRO_FEEDBACK /\
            nextAction session = Some Action.NEXT_QUESTION) as [Hst Hna].
    { vm_compute in Hget. injection Hget as <-. split; reflexivity. }
    destruct (pending_decision_survives_ack 4 5 "s1" None None
                sample_answered session sample_answered_reachable Hget Hst)
      as (r' & response & stored & Hnext & Hstored & _ & Hkept & _ & Hagain).
    exists r', stored. rewrite Hnext, Hagain, Hkept.
    repeat split; assumption.
  - vm_compute in Hget. discriminate Hget.
Defined.


Lemma sample_ack_evaluated :
  let res := next 4 "s1" FEEDBACK_ACK None sample_answered in
  match getById "s1" sample_answered with
  | Some session => state session = MICRO_FEEDBACK
  | None => False
  end /\
  match res.2 with Ok _ => True | Err _ => False end /\
  match getById "s1" res.1 with
  | Some stored => nextAction stored = Some Action.NEXT_QUESTION
  | None => False
  end.
Proof. vm_compute. repeat split. Qed.

(** C8, as the specification words it, fails: after the first answer of
    the sample interview is acknowledged, the stored session still
    carries NEXT_QUESTION. *)
Lemma decision_not_cleared_by_ack :
  match getById "s1" (next 4 "s1" FEEDBACK_ACK None sample_answered).1 with
  | Some stored => nextAction stored = Some Action.NEXT_QUESTION
  | None => False
  end /\
  ~ decision_cleared_by_ack.
Proof.
  destruct sample_ack_evaluated as (Hst & Hok & Hkept).
  split; [exact Hkept |]. intros Hcleared.
  destruct (getById "s1" sample_answered) as [session |] eqn:Hget;
    [| contradiction].
  destruct (next 4 "s1" FEEDBACK_ACK None sample_answered)
    as [r' [response | e]] eqn:Hnext; [| contradiction].
  destruct (Hcleared 4 "s1" None sample_answered session r' response
              Hget Hst Hnext) as (stored & Hstored & Hnone).
  cbn [fst] in Hkept. rewrite Hstored, Hnone in Hkept. discriminate Hkept.
Qed.

(** C6 at an expired session.  The sample interview is paused with its
    last heartbeat at instant 0.  Twenty-five hours later the session is
    expired, and [getActiveInterview] reports that it cannot be resumed;
    yet [resume] succeeds and puts it back in QUESTION, where the claim
    has it fail with CannotResume. *)
Theorem resume_succeeds_on_expired_session :
  match getById "s1" sample_paused with
  | Some session =>
      state session = PAUSED /\
      InterviewSession.isResumable session = true /\
      InterviewSession.isExpired a_day_later session = true
  | None => False
  end /\
  getActiveInterview a_day_later "u1" sample_paused
  = Some (mkActiveInterview false None) /\
  match (resume a_day_later "s1" sample_paused).2 with
  | Ok result => resume_state result = QUESTION
  | Err _ => False
  end.
Proof. vm_compute. repeat split. Qed.

End Orchestrator.

Section Store.

Import InMemoryInterviewRepository.

Lemma create_consistent session r :
  store_consistent r ->
  interviewsById r !! id session = None ->
  store_consistent (create session r).
Proof.
  intros [Hkeys Hindex] Hfresh.
  assert (forall u i,
            activeInterviewByUser r !! u = Some i ->
            exists s,
              <[id session := session]> (interviewsById r) !! i = Some s /\
              userId s = u /\ state s <> COMPLETED) as Hold.
  { intros u i Hu. destruct (Hindex u i Hu) as (s & Hs & Howner & Hlive).
    exists s. rewrite lookup_insert_ne by congruence. auto. }
  unfold create. split.
  - intros k s. destruct (decide (state session <> COMPLETED)); cbn;
      rewrite lookup_insert; (case_decide; [congruence | apply Hkeys]).
  - intros u i. destruct (decide (state session <> COMPLETED)); cbn.
    + rewrite lookup_insert. case_decide; [| apply Hold].
      intros [= <-]. exists session. rewrite lookup_insert_eq. auto.
    + apply Hold.
Qed.

Lemma save_consistent now session r :
  store_consistent r ->
  (forall stored,
     interviewsById r !! id session = Some stored ->
     userId stored = userId session) ->
  store_consistent (save now session r).
Proof.
  intros [Hkeys Hindex] Hsame.
  set (saved := set_updatedAt now session).
  assert (forall u i,
            u <> userId session ->
            activeInterviewByUser r !! u = Some i ->
            exists s,
              <[id session := saved]> (interviewsById r) !! i = Some s /\
              userId s = u /\ state s <> COMPLETED) as Hold.
  { intros u i Hne Hu. destruct (Hindex u i Hu) as (s & Hs & Howner & Hlive).
    exists s. rewrite lookup_insert_ne; [auto |].
    intros <-. apply Hne. rewrite <- Howner. apply Hsame, Hs. }
  unfold save. fold saved.
  change (id saved) with (id session).
  change (userId saved) with (userId session).
  change (state saved) with (state session).
  split.
  - intros k s. destruct (decide (state session = COMPLETED)); cbn;
      rewrite lookup_insert;
      (case_decide; [intros [= <-]; assumption | apply Hkeys]).
  - intros u i. destruct (decide (state session = COMPLETED)); cbn.
    + rewrite lookup_delete. case_decide; [discriminate |].
      apply Hold. congruence.
    + rewrite lookup_insert. case_decide; [| apply Hold; congruence].
      intros [= <-]. exists saved. rewrite lookup_insert_eq. auto.
Qed.

Lemma updateHeartbeat_consistent now sessionId r :
  store_consistent r ->
  store_consistent (updateHeartbeat now sessionId r).1.
Proof.
  intros [Hkeys Hindex]. unfold updateHeartbeat, getById.
  destruct (interviewsById r !! sessionId) as [session |] eqn:Hget;
    [| split; assumption].
  unfold write_back. split; cbn.
  - intros k s. rewrite lookup_insert.
    case_decide; [intros [= <-]; subst k; apply (Hkeys _ _ Hget) | apply Hkeys].
  - intros u i Hu. destruct (Hindex u i Hu) as (s & Hs & Howner & Hlive).
    rewrite lookup_insert. case_decide; [| eauto].
    subst i. rewrite Hget in Hs. injection Hs as <-.
    eexists. split; [reflexivity |]. auto.
Qed.

Lemma complete_consistent now sessionId r :
  store_consistent r ->
  store_consistent (complete now sessionId r).1.
Proof.
  intros [Hkeys Hindex]. unfold complete, getById.
  destruct (interviewsById r !! sessionId) as [session |] eqn:Hget;
    [| split; assumption].
  pose proof (Hkeys _ _ Hget) as Hid.
  unfold save, write_back; cbn. rewrite decide_True by reflexivity.
  split; cbn.
  - intros k s. rewrite !lookup_insert. rewrite Hid.
    repeat case_decide; try congruence;
      first [intros [= <-]; cbn; congruence | apply Hkeys].
  - intros u i. rewrite !lookup_delete.
    case_decide; [discriminate |]. intros Hu.
    destruct (Hindex u i Hu) as (s & Hs & Howner & Hlive).
    exists s. rewrite !lookup_insert_ne; [auto | |];
      rewrite ?Hid; intros <-; congruence.
Qed.

Lemma delete_consistent sessionId r :
  store_consistent r ->
  store_consistent (InMemoryInterviewRepository.delete sessionId r).
Proof.
  intros [Hkeys Hindex]. unfold InMemoryInterviewRepository.delete, getById.
  destruct (interviewsById r !! sessionId) as [session |] eqn:Hget;
    [| split; assumption].
  assert (forall u i,
            activeInterviewByUser r !! u = Some i ->
            (u = userId session -> i <> sessionId) ->
            exists s,
              base.delete sessionId (interviewsById r) !! i = Some s /\
              userId s = u /\ state s <> COMPLETED) as Hold.
  { intros u i Hu Hother.
    destruct (Hindex u i Hu) as (s & Hs & Howner & Hlive).
    exists s. rewrite lookup_delete_ne; [auto |].
    intros <-. apply Hother; congruence. }
  split.
  - intros k s. case_decide; cbn; rewrite lookup_delete;
      (case_decide; [discriminate | apply Hkeys]).
  - intros u i. case_decide as Hactive; cbn.
    + rewrite lookup_delete. case_decide; [discriminate |].
      intros Hu. apply (Hold u i Hu). congruence.
    + intros Hu. apply (Hold u i Hu). intros -> ->. contradiction.
Qed.

Lemma apply_consistent now op r :
  store_consistent r -> respects_ids op r ->
  store_consistent (apply now op r).
Proof.
  intros Hr Hids. destruct op; cbn [apply respects_ids] in *.
  - apply create_consistent; assumption.
  - apply save_consistent; assumption.
  - apply updateHeartbeat_consistent, Hr.
  - apply complete_consistent, Hr.
  - apply delete_consistent, Hr.
  - split; intros ? ?; cbn; rewrite lookup_empty; discriminate.
Qed.

Lemma consistent_index_active r : store_consistent r -> index_active r.
Proof.
  intros [_ Hindex] u i Hu.
  destruct (Hindex u i Hu) as (s & Hs & _ & Hlive). eauto.
Qed.

(** The operations of the store taken by themselves.  Where every
    session is stored under its own id and the active index is sound, a
    store operation that does not reuse an id keeps both.  [create] files
    a session that is not COMPLETED as its user's active one, whatever was
    filed there, and leaves the index alone otherwise; [save] removes the
    user's pointer when the session is COMPLETED and sets it otherwise.
    The premise is lost where a stored object is completed without being
    saved: see [active_index_names_completed_session]. *)
Lemma active_index_maintained (now : Z) (op : StoreOp) (r : Repository)
  (session : Session) :
  store_consistent r ->
  respects_ids op r ->
  (store_consistent (apply now op r) /\ index_active (apply now op r)) /\
  (state session <> COMPLETED ->
   activeInterviewByUser (create session r) !! userId session
   = Some (id session)) /\
  (state session = COMPLETED ->
   activeInterviewByUser (create session r) = activeInterviewByUser r) /\
  (state session = COMPLETED ->
   activeInterviewByUser (save now session r) !! userId session = None) /\
  (state session <> COMPLETED ->
   activeInterviewByUser (save now session r) !! userId session
   = Some (id session)).
Proof.
  intros Hr Hids.
  pose proof (apply_consistent now op r Hr Hids) as Hafter.
  split; [split; [exact Hafter | apply consistent_index_active, Hafter] |].
  unfold create, save; cbn.
  repeat split; intros Hstate.
  - rewrite decide_True by exact Hstate. cbn. apply lookup_insert_eq.
  - rewrite decide_False by (intros Hne; apply Hne, Hstate). reflexivity.
  - rewrite decide_True by exact Hstate. cbn. apply lookup_delete_eq.
  - rewrite decide_False by exact Hstate. cbn. apply lookup_insert_eq.
Qed.

Lemma empty_consistent : store_consistent InMemoryInterviewRepository.empty.
Proof. split; intros ? ?; cbn; rewrite lookup_empty; discriminate. Qed.

Lemma active_index_maintained_witness :
  index_active
    (apply 0 (OpCreate sample_session) InMemoryInterviewRepository.empty) /\
  activeInterviewByUser
    (create sample_session InMemoryInterviewRepository.empty) !! "u1"
  = Some "s1".
Proof.
  destruct (active_index_maintained 0 (OpCreate sample_session)
              InMemoryInterviewRepository.empty sample_session
              empty_consistent)
    as ((_ & Hactive) & Hcreate & _).
  - reflexivity.
  - split; [exact Hactive |]. apply Hcreate. discriminate.
Defined.

Lemma names_completed_not_active r u i :
  activeInterviewByUser r !! u = Some i ->
  state <$> interviewsById r !! i = Some COMPLETED ->
  ~ index_active r.
Proof.
  intros Hu Hdone Hactive.
  destruct (Hactive u i Hu) as (s & Hs & Hlive).
  rewrite Hs in Hdone. injection Hdone as Hdone. contradiction.
Qed.

(** C5. The index does not stay sound on the stores the orchestrator
    produces.  A COMPLETE_INTERVIEW dispatch on the started sample
    interview completes the stored session object and then throws before
    [save] is reached, so the store it leaves, which is reachable, files
    user u1 under s1 while s1 is COMPLETED.  The store operation
    [updateHeartbeat] made next leaves an index that names the COMPLETED
    session, and [getActiveByUserId] returns it as the active one.  The
    path the dispatch did not reach behaves as stated: [save] of that
    session removes the pointer. *)
Theorem active_index_names_completed_session :
  reachable sample_completed /\
  activeInterviewByUser sample_completed !! "u1" = Some "s1" /\
  state <$> getById "s1" sample_completed = Some COMPLETED /\
  ~ index_active sample_completed /\
  let r := apply 4 (OpUpdateHeartbeat "s1") sample_completed in
  activeInterviewByUser r !! "u1" = Some "s1" /\
  state <$> getActiveByUserId "u1" r = Some COMPLETED /\
  ~ index_active r /\
  match getById "s1" r with
  | Some session =>
      activeInterviewByUser (apply 5 (OpSave session) r) !! "u1" = None /\
      index_active (apply 5 (OpSave session) r)
  | None => False
  end.
Proof.
  split; [repeat constructor |].
  split; [reflexivity |]. split; [reflexivity |].
  split; [apply (names_completed_not_active _ "u1" "s1"); reflexivity |].
  intros r.
  split; [reflexivity |]. split; [reflexivity |].
  split; [apply (names_completed_not_active _ "u1" "s1"); reflexivity |].
  destruct (getById "s1" r) as [session |] eqn:Hget.
  - assert (userId session = "u1" /\ state session = COMPLETED)
      as [Huser Hstate].
    { vm_compute in Hget. injection Hget as <-. split; reflexivity. }
    assert (activeInterviewByUser r = {["u1" := "s1"]}) as Hindex
      by reflexivity.
    assert (activeInterviewByUser (apply 5 (OpSave session) r) = ∅) as Hsaved.
    { cbn [apply]. unfold save. cbn [state set_updatedAt].
      rewrite decide_True by exact Hstate. cbn.
      rewrite Huser.
      change (base.delete "u1" (activeInterviewByUser r) = ∅).
      rewrite Hindex. apply delete_singleton_eq. }
    rewrite Hsaved. split; [apply lookup_empty |].
    intros u i. rewrite Hsaved, lookup_empty. discriminate.
  - vm_compute in Hget. discriminate Hget.
Qed.

End Store.

Section Samples.

Import InMemoryInterviewRepository InterviewOrchestrator.

(** A second PAUSE on the paused sample interview. *)
Lemma next_absent_pair_fails_witness :
  exists message,
    next 5 "s1" PAUSE None sample_paused
    = (sample_paused, Err (InvalidTransitionError message)) /\
    next 6 "s1" PAUSE None (next 5 "s1" PAUSE None sample_paused).1
    = (sample_paused, Err (InvalidTransitionError message)).
Proof.
  destruct (getById "s1" sample_paused) as [session |] eqn:Hget.
  - assert (state session = PAUSED) as Hst.
    { vm_compute in Hget. injection Hget as <-. reflexivity. }
    destruct (next_absent_pair_fails 5 6 "s1" PAUSE None sample_paused
                session Hget) as (message & Hfirst & _ & Hsecond).
    + rewrite Hst. reflexivity.
    + exists message. split; assumption.
  - vm_compute in Hget. discriminate Hget.
Defined.

(** A heartbeat on the started sample interview. *)
Lemma updateHeartbeat_only_heartbeat_witness :
  exists r' session',
    InterviewOrchestrator.updateHeartbeat 7 "s1" sample_started
    = (r', Ok tt) /\
    getById "s1" r' = Some session' /\
    lastHeartbeat session' = 7 /\ updatedAt session' = 0.
Proof.
  destruct (getById "s1" sample_started) as [session |] eqn:Hget.
  - assert (updatedAt session = 0) as Hupdated.
    { vm_compute in Hget. injection Hget as <-. reflexivity. }
    destruct (updateHeartbeat_only_heartbeat 7 "s1" sample_started session
                Hget)
      as (r' & session' & Hrun & Hget' & Hbeat & Hsame & _).
    exists r', session'. repeat split; try assumption.
    unfold same_but_heartbeat in Hsame. rewrite <- Hupdated. tauto.
  - vm_compute in Hget. discriminate Hget.
Defined.

(** [resume] on the started sample interview, which is in QUESTION. *)
Lemma resume_active_session_fails_after_save_witness :
  (resume 7 "s1" sample_started).2
  = Err (InvalidTransitionError (CannotTransition QUESTION RESUME)) /\
  exists session',
    getById "s1" (resume 7 "s1" sample_started).1 = Some session' /\
    lastHeartbeat session' = 7 /\ updatedAt session' = 7.
Proof.
  destruct (getById "s1" sample_started) as [session |] eqn:Hget.
  - assert (state session = QUESTION) as Hst.
    { vm_compute in Hget. injection Hget as <-. reflexivity. }
    destruct (resume_active_session_fails_after_save 7 "s1" sample_started
                session Hget)
      as (Hrun & session' & Hget' & Hbeat & Hupdated & _).
    + rewrite Hst. set_solver.
    + rewrite Hrun, Hst. split; [reflexivity |].
      exists session'. repeat split; assumption.
  - vm_compute in Hget. discriminate Hget.
Defined.

(** A COMPLETE_INTERVIEW dispatch on the started sample interview: the
    session object is completed in step 3, then step 4 looks the event up
    from the state the object now has, COMPLETED, and throws before
    [save] runs.  The stored session is COMPLETED and the user's active
    pointer still names it. *)
Lemma complete_interview_dispatch_evaluated :
  (next 3 "s1" COMPLETE_INTERVIEW None sample_started).2
  = Err (InvalidTransitionError
           (CannotTransition COMPLETED COMPLETE_INTERVIEW)) /\
  state <$> getById "s1" sample_completed = Some COMPLETED /\
  activeInterviewByUser sample_completed !! "u1" = Some "s1".
Proof. vm_compute. repeat split. Qed.

End Samples.

Section Steps.

Import InMemoryInterviewRepository InterviewOrchestrator.

Ltac run_steps :=
  unfold next_on_session, side_effects, resolve_next_state, bind, read, lift,
    throw, ret, mutate; simpl.

Ltac accept_event Hst target :=
  unfold next_on_session, bind;
  rewrite (validate_present _ _ target) by (rewrite Hst; reflexivity);
  unfold side_effects, resolve_next_state, bind, read, lift, throw, ret,
    mutate; simpl; rewrite ?Hst.

Lemma transition_value st ev target :
  entry ev (INTERVIEW_STATE_TRANSITIONS st) = Some target ->
  StateManager.transition st ev = Ok target.
Proof. intros H. apply (transition_present _ _ _ H). Qed.

Lemma intro_done_on_session now data s q :
  state s = INTRO ->
  QuestionEngine.getQuestion (currentQuestionIndex s) = Ok q ->
  next_on_session now INTRO_DONE data s
  = (InterviewSession.transition now QUESTION s,
     Ok (QUESTION, PayloadQuestion q)).
Proof.
  intros Hst Hq. accept_event Hst QUESTION. rewrite Hq. simpl. rewrite Hst.
  rewrite (transition_value INTRO INTRO_DONE QUESTION eq_refl). reflexivity.
Qed.

Lemma start_recording_on_session now data s :
  state s = QUESTION ->
  next_on_session now START_RECORDING data s
  = (InterviewSession.transition now RECORDING s, Ok (RECORDING, PayloadEmpty)).
Proof.
  intros Hst. accept_event Hst RECORDING.
  rewrite (transition_value QUESTION START_RECORDING RECORDING eq_refl).
  reflexivity.
Qed.

Lemma answer_submitted_on_session now data s :
  state s = RECORDING ->
  let feedback :=
    FeedbackEngine.generateMockFeedback
      (default 60000 (data ≫= answerDuration)) in
  next_on_session now ANSWER_SUBMITTED data s
  = (InterviewSession.transition now PROCESSING
       (InterviewSession.updateFeedback now feedback s),
     Ok (PROCESSING, PayloadFeedback feedback)).
Proof.
  intros Hst feedback. accept_event Hst PROCESSING.
  rewrite (transition_value RECORDING ANSWER_SUBMITTED PROCESSING eq_refl).
  reflexivity.
Qed.

Lemma processing_done_on_session now data s :
  state s = PROCESSING ->
  let decision :=
    AdaptationEngine.decide (currentQuestionIndex s) (totalQuestions s)
      (lastFeedback s) in
  next_on_session now PROCESSING_DONE data s
  = (InterviewSession.transition now MICRO_FEEDBACK
       (set_nextAction (Some (action decision)) s),
     Ok (MICRO_FEEDBACK, PayloadDecision decision)).
Proof.
  intros Hst decision. accept_event Hst MICRO_FEEDBACK.
  rewrite (transition_value PROCESSING PROCESSING_DONE MICRO_FEEDBACK eq_refl).
  reflexivity.
Qed.

Lemma checkpoint_ack_on_session now data s q :
  state s = CHECKPOINT ->
  QuestionEngine.getQuestion (currentQuestionIndex s + 1) = Ok q ->
  next_on_session now CHECKPOINT_ACK data s
  = (InterviewSession.transition now QUESTION
       (set_currentQuestionIndex (currentQuestionIndex s + 1) s),
     Ok (QUESTION, PayloadQuestion q)).
Proof.
  intros Hst Hq. accept_event Hst QUESTION. rewrite Hq. simpl. rewrite Hst.
  rewrite (transition_value CHECKPOINT CHECKPOINT_ACK QUESTION eq_refl).
  reflexivity.
Qed.

Lemma checkpoint_ack_beyond_bank now data s :
  state s = CHECKPOINT ->
  QuestionEngine.getTotalQuestions <= currentQuestionIndex s + 1 ->
  next_on_session now CHECKPOINT_ACK data s
  = (set_currentQuestionIndex (currentQuestionIndex s + 1) s,
     Err NoMoreQuestions).
Proof.
  intros Hst Hq. accept_event Hst QUESTION.
  rewrite getQuestion_beyond by exact Hq. reflexivity.
Qed.

Lemma complete_interview_on_session now data s :
  state s = QUESTION \/ state s = MICRO_FEEDBACK ->
  next_on_session now COMPLETE_INTERVIEW data s
  = (InterviewSession.complete now s,
     Err (InvalidTransitionError
            (CannotTransition COMPLETED COMPLETE_INTERVIEW))).
Proof.
  intros [Hst | Hst]; accept_event Hst COMPLETED; reflexivity.
Qed.

Lemma pause_on_session now data s :
  state s ∈ [QUESTION; MICRO_FEEDBACK; CHECKPOINT] ->
  next_on_session now PAUSE data s
  = (InterviewSession.transition now PAUSED s,
     Ok (PAUSED, PayloadPaused (state s))).
Proof.
  intros Hin. set_unfold in Hin.
  destruct Hin as [Hst | [Hst | [Hst | []]]]; accept_event Hst PAUSED.
  - rewrite (transition_value QUESTION PAUSE PAUSED eq_refl). reflexivity.
  - rewrite (transition_value MICRO_FEEDBACK PAUSE PAUSED eq_refl). reflexivity.
  - rewrite (transition_value CHECKPOINT PAUSE PAUSED eq_refl). reflexivity.
Qed.

Lemma resume_on_session now data s q :
  state s = PAUSED ->
  QuestionEngine.getQuestion (currentQuestionIndex s) = Ok q ->
  next_on_session now RESUME data s
  = (InterviewSession.transition now QUESTION s,
     Ok (QUESTION, PayloadResumed q)).
Proof.
  intros Hst Hq. accept_event Hst QUESTION. rewrite Hq. simpl. rewrite Hst.
  rewrite (transition_value PAUSED RESUME QUESTION eq_refl). reflexivity.
Qed.

Lemma getQuestion_ok_bound i q :
  QuestionEngine.getQuestion i = Ok q -> i < QuestionEngine.getTotalQuestions.
Proof.
  intros Hq. destruct (Z.lt_ge_cases i QuestionEngine.getTotalQuestions)
    as [Hlt | Hge]; [exact Hlt |].
  rewrite getQuestion_beyond in Hq by exact Hge. discriminate Hq.
Qed.

(** What a dispatch does to a session object that satisfies the
    invariant and whose ordinal is inside the bank: it keeps [id] and
    [userId], keeps the ordinal inside the bank, never enters INTRO or
    ERROR, and throws nothing but InvalidTransition. *)
Lemma next_on_session_sound now event data s :
  session_ok s ->
  currentQuestionIndex s < QuestionEngine.getTotalQuestions ->
  let s' := (next_on_session now event data s).1 in
  id s' = id s /\ userId s' = userId s /\
  currentQuestionIndex s' < QuestionEngine.getTotalQuestions /\
  (state s' = INTRO -> state s = INTRO) /\
  (state s' = ERROR -> state s = ERROR) /\
  match (next_on_session now event data s).2 with
  | Ok (st, _) => state s' = st /\ st <> INTRO /\ st <> ERROR
  | Err e => exists m, e = InvalidTransitionError m
  end.
Proof.
  intros Hok Hlt. pose proof (ok_index _ Hok) as Hpos.
  destruct (entry event (INTERVIEW_STATE_TRANSITIONS (state s)))
    as [target |] eqn:Hentry.
  2:{ unfold next_on_session, bind. rewrite (validate_absent _ _ Hentry).
      cbn. repeat split; eauto. }
  destruct event, (state s) eqn:Hst; try discriminate Hentry; clear Hentry.
  - destruct (getQuestion_in_range (currentQuestionIndex s)) as [q Hq];
      [lia |].
    rewrite (intro_done_on_session now data s _ Hst Hq). cbn.
    repeat split; congruence.
  - rewrite (start_recording_on_session now data s Hst). cbn.
    repeat split; congruence.
  - rewrite (answer_submitted_on_session now data s Hst). cbn.
    repeat split; congruence.
  - rewrite (processing_done_on_session now data s Hst). cbn.
    repeat split; congruence.
  - pose proof (feedback_ack_on_session now data s Hok Hst) as Hack.
    destruct (nextAction s) as [[| |] |].
    2: destruct Hack as [_ Hack].
    1, 4: destruct Hack as (answered & nextQuestion & _ & Hnext & Hack);
          apply getQuestion_ok_bound in Hnext.
    all: rewrite Hack; cbn; repeat split; congruence.
  - pose proof (ok_checkpoint _ Hok Hst) as Hroom.
    destruct (getQuestion_in_range (currentQuestionIndex s + 1)) as [q Hq];
      [lia |].
    rewrite (checkpoint_ack_on_session now data s _ Hst Hq). cbn.
    repeat split; congruence.
  - rewrite (complete_interview_on_session now data s (or_introl Hst)). cbn.
    repeat split; eauto; congruence.
  - rewrite (complete_interview_on_session now data s (or_intror Hst)). cbn.
    repeat split; eauto; congruence.
  - rewrite (pause_on_session now data s) by (rewrite Hst; set_solver). cbn.
    repeat split; congruence.
  - rewrite (pause_on_session now data s) by (rewrite Hst; set_solver). cbn.
    repeat split; congruence.
  - rewrite (pause_on_session now data s) by (rewrite Hst; set_solver). cbn.
    repeat split; congruence.
  - destruct (getQuestion_in_range (currentQuestionIndex s)) as [q Hq];
      [lia |].
    rewrite (resume_on_session now data s _ Hst Hq). cbn.
    repeat split; congruence.
Qed.

End Steps.

Section Soundness.

Import InMemoryInterviewRepository InterviewOrchestrator.

Lemma interviewsById_save now s r :
  interviewsById (save now s r)
  = <[id s := set_updatedAt now s]> (interviewsById r).
Proof. unfold save. case_decide; reflexivity. Qed.

Lemma activeInterviewByUser_save now s r :
  activeInterviewByUser (save now s r)
  = if decide (state s = COMPLETED)
    then base.delete (userId s) (activeInterviewByUser r)
    else <[userId s := id s]> (activeInterviewByUser r).
Proof. unfold save. cbn. case_decide; reflexivity. Qed.

(** The store a dispatch on a stored session leaves: the session object
    as the steps left it, saved when they all succeeded. *)
Lemma next_interviews now k event data r s :
  getById k r = Some s ->
  id (next_on_session now event data s).1 = k ->
  interviewsById (next now k event data r).1
  = <[k := match (next_on_session now event data s).2 with
           | Ok _ => set_updatedAt now (next_on_session now event data s).1
           | Err _ => (next_on_session now event data s).1
           end]> (interviewsById r).
Proof.
  intros Hget Hid. unfold next. rewrite Hget.
  destruct (next_on_session now event data s) as [s' [[st p] | e]];
    cbn [fst snd] in *.
  - rewrite interviewsById_save, Hid. unfold write_back; cbn.
    apply insert_insert_eq.
  - reflexivity.
Qed.

Lemma next_missing now k event data r :
  getById k r = None ->
  next now k event data r = (r, Err (InterviewNotFoundError k)).
Proof. intros Hget. unfold next. rewrite Hget. reflexivity. Qed.

Lemma set_updatedAt_sound now s :
  session_sound s -> session_sound (set_updatedAt now s).
Proof.
  intros [Hok Hlt Hintro Herror].
  constructor; [apply set_updatedAt_ok, Hok | assumption ..].
Qed.

Lemma set_lastHeartbeat_sound now s :
  session_sound s -> session_sound (set_lastHeartbeat now s).
Proof.
  intros [Hok Hlt Hintro Herror].
  constructor; [apply set_lastHeartbeat_ok, Hok | assumption ..].
Qed.

Lemma sessions_sound_insert k s m :
  sessions_sound m -> id s = k -> session_sound s ->
  sessions_sound (<[k := s]> m).
Proof.
  intros Hm Hid Hs k' s'. rewrite lookup_insert.
  case_decide; [intros [= <-]; subst; auto | apply Hm].
Qed.

Lemma next_on_session_keeps_sound now event data s :
  session_sound s ->
  session_sound (next_on_session now event data s).1.
Proof.
  intros [Hok Hlt Hintro Herror].
  destruct (next_on_session_sound now event data s Hok Hlt)
    as (_ & _ & Hlt' & Hintro' & Herror' & _).
  constructor; [apply next_on_session_ok, Hok | exact Hlt' | tauto | tauto].
Qed.

Lemma next_sound now k event data r :
  sessions_sound (interviewsById r) ->
  sessions_sound (interviewsById (next now k event data r).1).
Proof.
  intros Hr. destruct (getById k r) as [s |] eqn:Hget.
  2:{ rewrite next_missing by exact Hget. exact Hr. }
  destruct (Hr _ _ Hget) as [Hid Hs].
  pose proof (next_on_session_keeps_sound now event data s Hs) as Hs'.
  destruct (next_on_session_sound now event data s (sound_ok _ Hs)
              (sound_index _ Hs)) as (Hid' & _).
  rewrite (next_interviews now k event data r s Hget) by congruence.
  apply sessions_sound_insert; [exact Hr | |];
    destruct (next_on_session now event data s).2;
    first [apply set_updatedAt_sound, Hs' | exact Hs' | cbn; congruence].
Qed.

(** A dispatch throws nothing but NotFound and InvalidTransition. *)
Lemma next_client_error now k event data r e :
  sessions_sound (interviewsById r) ->
  (next now k event data r).2 = Err e -> client_error e.
Proof.
  intros Hr. destruct (getById k r) as [s |] eqn:Hget.
  2:{ rewrite next_missing by exact Hget. intros [= <-]. exact I. }
  destruct (Hr _ _ Hget) as [_ Hs].
  destruct (next_on_session_sound now event data s (sound_ok _ Hs)
              (sound_index _ Hs)) as (_ & _ & _ & _ & _ & Hres).
  unfold next. rewrite Hget.
  destruct (next_on_session now event data s) as [s' [[st p] | e']];
    cbn [fst snd] in *; [discriminate |].
  intros [= <-]. destruct Hres as [m ->]. exact I.
Qed.

(** A dispatch touches no session but the one it is addressed to. *)
Lemma next_other_key now k k' event data r :
  sessions_sound (interviewsById r) -> k <> k' ->
  getById k (next now k' event data r).1 = getById k r.
Proof.
  intros Hr Hne. destruct (getById k' r) as [s |] eqn:Hget.
  2:{ rewrite next_missing by exact Hget. reflexivity. }
  destruct (Hr _ _ Hget) as [Hid Hs].
  destruct (next_on_session_sound now event data s (sound_ok _ Hs)
              (sound_index _ Hs)) as (Hid' & _).
  unfold getById at 1.
  rewrite (next_interviews now k' event data r s Hget) by congruence.
  apply lookup_insert_ne. congruence.
Qed.

Lemma next_good now k event data r :
  sessions_sound (interviewsById r) ->
  sessions_sound (interviewsById (next now k event data r).1) /\
  (forall k0, k0 <> k ->
     getById k0 (next now k event data r).1 = getById k0 r) /\
  (forall e, (next now k event data r).2 = Err e -> client_error e).
Proof.
  intros Hr. split; [apply next_sound, Hr |]. split.
  - intros k0 Hne. apply next_other_key; assumption.
  - intros e. apply next_client_error, Hr.
Qed.

Lemma getById_create k s r :
  getById k (create s r) = if decide (id s = k) then Some s else getById k r.
Proof. unfold getById, create. case_decide; cbn; apply lookup_insert. Qed.

(** [startInterview], step by step: the session is created in INTRO and
    INTRO_DONE, which finds the first question, takes it to QUESTION. *)
Lemma startInterview_steps now sessionId userId roleId r :
  let created :=
    InterviewSession.new now sessionId userId roleId INTRO None 0 []
      QuestionEngine.getTotalQuestions in
  let started := InterviewSession.transition now QUESTION created in
  startInterview now sessionId userId roleId r
  = (save now started (write_back sessionId started (create created r)),
     Ok (mkStartResult sessionId QUESTION (MOCK_QUESTIONS !! 0%nat) 10 1200)).
Proof.
  intros created started. unfold startInterview. fold created.
  assert (getById sessionId (create created r) = Some created) as Hget.
  { rewrite getById_create, decide_True by reflexivity. reflexivity. }
  destruct (next_committed now sessionId INTRO_DONE None (create created r)
              created started QUESTION (PayloadQuestion (MOCK_QUESTIONS !! 0%nat))
              Hget) as [Hnext _].
  { apply intro_done_on_session; reflexivity. }
  rewrite Hnext. reflexivity.
Qed.

Lemma started_session_sound now sessionId userId roleId :
  session_sound
    (InterviewSession.transition now QUESTION
       (InterviewSession.new now sessionId userId roleId INTRO None 0 []
          QuestionEngine.getTotalQuestions)).
Proof.
  constructor; cbn; try discriminate; [| reflexivity].
  constructor; cbn; try discriminate; try reflexivity.
  split; intros Hx; [discriminate Hx | contradiction Hx; reflexivity].
Qed.

Ltac unchanged Hr :=
  cbn; split; [exact Hr | split; [reflexivity | intros ? [= <-]; exact I]].

(** Every call keeps the store sound, touches no session but the one it
    is addressed to and throws nothing but NotFound, InvalidTransition
    and CannotResume. *)
Lemma run_good now c r :
  sessions_sound (interviewsById r) ->
  sessions_sound (interviewsById (run now c r)) /\
  (forall k0, k0 <> target c -> getById k0 (run now c r) = getById k0 r) /\
  (forall e, failure now c r = Some e -> client_error e).
Proof.
  intros Hr. destruct c; cbn [run target failure].
  - rewrite startInterview_steps. cbn [fst snd].
    split; [| split; [| discriminate]].
    + rewrite interviewsById_save. unfold write_back, create; cbn.
      case_decide; cbn; rewrite !insert_insert_eq;
        (apply sessions_sound_insert;
         [exact Hr | reflexivity | apply started_session_sound]).
    + intros k0 Hne. rewrite getById_save, getById_write_back, getById_create.
      cbn. rewrite !decide_False by congruence. reflexivity.
  - destruct (next_good now sessionId event data r Hr) as (H1 & H2 & H3).
    split; [exact H1 |]. split; [exact H2 |].
    intros e. destruct (next now sessionId event data r).2 eqn:Hres;
      [discriminate | intros [= <-]; apply H3; reflexivity].
  - unfold submitAnswer.
    destruct (getById interviewId r) as [session |];
      [| unchanged Hr].
    set (first := if decide (state session = QUESTION)
                  then next now interviewId START_RECORDING None r
                  else (r, Ok (mkResponse (state session)
                                 (mapStateToScreen (state session))
                                 PayloadEmpty))).
    assert (sessions_sound (interviewsById first.1) /\
            (forall k0, k0 <> interviewId -> getById k0 first.1 = getById k0 r) /\
            (forall e, first.2 = Err e -> client_error e)) as (A1 & A2 & A3).
    { subst first. case_decide; [apply next_good, Hr |].
      cbn. split; [exact Hr | split; [reflexivity | discriminate]]. }
    destruct first as [r1 [started | e1]]; cbn [fst snd] in *.
    2:{ split; [exact A1 |]. split; [exact A2 |].
        intros e [= <-]. apply A3. reflexivity. }
    match goal with
    | |- context [next ?n ?i ANSWER_SUBMITTED ?d r1] =>
        destruct (next_good n i ANSWER_SUBMITTED d r1 A1) as (B1 & B2 & B3);
        destruct (next n i ANSWER_SUBMITTED d r1) as [r2 [result | e2]]
    end; cbn [fst snd] in *.
    2:{ split; [exact B1 |]. split.
        - intros k0 Hne. rewrite B2, A2 by exact Hne. reflexivity.
        - intros e [= <-]. apply B3. reflexivity. }
    destruct (next_good now interviewId PROCESSING_DONE None r2 B1)
      as (C1 & C2 & C3).
    destruct (next now interviewId PROCESSING_DONE None r2)
      as [r3 [done | e3]]; cbn [fst snd] in *.
    + split; [exact C1 |]. split; [| discriminate].
      intros k0 Hne. rewrite C2, B2, A2 by exact Hne. reflexivity.
    + split; [exact C1 |]. split.
      * intros k0 Hne. rewrite C2, B2, A2 by exact Hne. reflexivity.
      * intros e [= <-]. apply C3. reflexivity.
  - unfold continue.
    destruct (getById interviewId r) as [session |];
      [| unchanged Hr].
    repeat case_decide.
    3: unchanged Hr.
    all: match goal with
         | |- context [next ?n ?i ?e ?d ?r0] =>
             destruct (next_good n i e d r0 Hr) as (H1 & H2 & H3);
             destruct (next n i e d r0) as [r1 [result | e1]]
         end; cbn [fst snd] in *;
      (split; [exact H1 |]; split; [exact H2 |]);
      first [discriminate | intros ? [= <-]; apply H3; reflexivity].
  - unfold pause.
    destruct (next_good now interviewId PAUSE None r Hr) as (H1 & H2 & H3).
    destruct (next now interviewId PAUSE None r) as [r1 [result | e1]];
      cbn [fst snd] in *;
      (split; [exact H1 |]; split; [exact H2 |]);
      first [discriminate | intros ? [= <-]; apply H3; reflexivity].
  - unfold resume.
    destruct (getById interviewId r) as [session |] eqn:Hget;
      [| unchanged Hr].
    destruct (InterviewSession.isResumable session); cbn [negb];
      [| unchanged Hr].
    destruct (Hr _ _ Hget) as [Hid Hs].
    set (touched := InterviewSession.updateHeartbeat now session).
    set (r0 := save now touched (write_back interviewId touched r)).
    assert (sessions_sound (interviewsById r0)) as Hr0.
    { subst r0. rewrite interviewsById_save. unfold write_back; cbn.
      rewrite Hid, insert_insert_eq.
      apply sessions_sound_insert; [exact Hr | exact Hid |].
      apply set_updatedAt_sound, set_updatedAt_sound, set_lastHeartbeat_sound,
        Hs. }
    assert (forall k0, k0 <> interviewId -> getById k0 r0 = getById k0 r)
      as Hframe.
    { intros k0 Hne. subst r0. rewrite getById_save, getById_write_back.
      cbn. rewrite Hid, !decide_False by congruence. reflexivity. }
    destruct (next_good now interviewId RESUME None r0 Hr0) as (H1 & H2 & H3).
    destruct (next now interviewId RESUME None r0) as [r1 [result | e1]];
      cbn [fst snd] in *;
      (split; [exact H1 |]; split;
       [intros k0 Hne; rewrite H2, Hframe by exact Hne; reflexivity |]);
      first [discriminate | intros ? [= <-]; apply H3; reflexivity].
  - unfold updateHeartbeat, InMemoryInterviewRepository.updateHeartbeat.
    destruct (getById interviewId r) as [session |] eqn:Hget;
      [| unchanged Hr].
    destruct (Hr _ _ Hget) as [Hid Hs]. cbn [fst snd].
    split; [| split; [| discriminate]].
    + unfold write_back; cbn.
      apply sessions_sound_insert;
        [exact Hr | exact Hid | apply set_lastHeartbeat_sound, Hs].
    + intros k0 Hne. rewrite getById_write_back.
      rewrite decide_False by congruence. reflexivity.
Qed.

Lemma reachable_sound r : reachable r -> sessions_sound (interviewsById r).
Proof.
  induction 1 as [| now c r _ IH].
  - intros k s. cbn. rewrite lookup_empty. discriminate.
  - apply run_good, IH.
Qed.

End Soundness.

Section Calls.

Import InMemoryInterviewRepository InterviewOrchestrator.

(** X1. In every reachable store each session is filed under its own
    id, its ordinal is inside the question bank, its total is the size
    of the bank, and it is neither in INTRO nor in ERROR. *)
Theorem reachable_sessions_sound (r : Repository) (k : string) (s : Session) :
  reachable r ->
  getById k r = Some s ->
  id s = k /\
  0 <= currentQuestionIndex s < totalQuestions s /\
  totalQuestions s = 10 /\
  state s <> INTRO /\ state s <> ERROR.
Proof.
  intros Hreach Hget.
  destruct (reachable_sound r Hreach k s Hget) as [Hid [Hok Hlt Hintro Herror]].
  pose proof (ok_total _ Hok) as Htotal. pose proof (ok_index _ Hok) as Hpos.
  rewrite Htotal. repeat split; assumption.
Qed.

Lemma reachable_sessions_sound_witness :
  match getById "s1" sample_answered with
  | Some s => id s = "s1" /\ 0 <= currentQuestionIndex s < totalQuestions s
  | None => False
  end.
Proof.
  destruct (getById "s1" sample_answered) as [s |] eqn:Hget.
  - destruct (reachable_sessions_sound sample_answered "s1" s
                sample_answered_reachable Hget) as (Hid & Hidx & _).
    split; assumption.
  - vm_compute in Hget. discriminate Hget.
Defined.

(** X2. On a reachable store no call throws anything but NotFound,
    InvalidTransition or CannotResume: the question bank is never
    overrun and no lookup hits [undefined]. *)
Theorem calls_throw_client_errors_only (now : Z) (c : Call) (r : Repository)
  (e : Error) :
  reachable r ->
  failure now c r = Some e ->
  client_error e.
Proof.
  intros Hreach. apply (run_good now c r (reachable_sound r Hreach)).
Qed.

Lemma sample_paused_reachable : reachable sample_paused.
Proof. repeat constructor. Qed.

Lemma calls_throw_client_errors_only_witness :
  client_error
    (InvalidTransitionError (CannotTransition PAUSED PAUSE)).
Proof.
  apply (calls_throw_client_errors_only 5 (Pause "s1") sample_paused).
  - exact sample_paused_reachable.
  - vm_compute. reflexivity.
Defined.

Lemma calls_touch_only_their_session_frame now c r k :
  reachable r ->
  k <> target c ->
  getById k (run now c r) = getById k r.
Proof.
  intros Hreach. apply (run_good now c r (reachable_sound r Hreach)).
Qed.

(** X3. On a reachable store a call changes no stored session but the
    one whose id it is addressed to. *)
Theorem calls_touch_only_their_session (now : Z) (c : Call) (r : Repository)
  (k : string) :
  reachable r ->
  k <> target c ->
  getById k (run now c r) = getById k r.
Proof.
  intros Hreach. apply (run_good now c r (reachable_sound r Hreach)).
Qed.

Lemma calls_touch_only_their_session_witness :
  getById "s1" (run 9 (StartInterview "s2" "u2" "backend") sample_answered)
  = getById "s1" sample_answered.
Proof.
  apply calls_touch_only_their_session.
  - exact sample_answered_reachable.
  - discriminate.
Defined.

Lemma completed_has_no_entry event :
  entry event (INTERVIEW_STATE_TRANSITIONS COMPLETED) = None.
Proof. reflexivity. Qed.

Lemma next_on_completed now k event data r s :
  getById k r = Some s -> state s = COMPLETED ->
  exists m, next now k event data r = (r, Err (InvalidTransitionError m)).
Proof.
  intros Hget Hst. eexists.
  apply (next_rejected now _ _ data _ _ _ Hget).
  apply validate_absent. rewrite Hst. apply completed_has_no_entry.
Qed.

Lemma same_but_heartbeat_refl s : same_but_heartbeat s s.
Proof. unfold same_but_heartbeat. repeat split. Qed.

(** X4. A COMPLETED session is final.  On a reachable store, whatever
    call is made, other than a [startInterview] that draws the very id of
    the session, the session stays stored and keeps every field except
    [lastHeartbeat]. *)
Theorem completed_session_is_final (now : Z) (c : Call) (r : Repository)
  (k : string) (s : Session) :
  reachable r ->
  getById k r = Some s ->
  state s = COMPLETED ->
  (forall user role, c <> StartInterview k user role) ->
  exists s',
    getById k (run now c r) = Some s' /\ same_but_heartbeat s s'.
Proof.
  intros Hreach Hget Hst Hstart.
  destruct (decide (k = target c)) as [-> | Hother].
  2:{ exists s. rewrite (calls_touch_only_their_session_frame now c r k)
        by assumption. split; [exact Hget | apply same_but_heartbeat_refl]. }
  destruct c as [sid user role | sid event data
                | answerId interviewId audioUrl durationMs | interviewId
                | interviewId | interviewId | interviewId];
    cbn [target run] in *.
  - exfalso. apply (Hstart user role). reflexivity.
  - destruct (next_on_completed now _ event data r s Hget Hst) as [m ->].
    exists s. split; [exact Hget | apply same_but_heartbeat_refl].
  - unfold submitAnswer. rewrite Hget, Hst.
    rewrite decide_False by discriminate.
    destruct (next_on_completed now interviewId ANSWER_SUBMITTED
                (Some (mkEventData (Some durationMs) (Some audioUrl)
                         (Some answerId))) r s Hget Hst) as [m ->].
    exists s. split; [exact Hget | apply same_but_heartbeat_refl].
  - unfold continue. rewrite Hget, Hst.
    rewrite !decide_False by discriminate.
    exists s. split; [exact Hget | apply same_but_heartbeat_refl].
  - unfold pause.
    destruct (next_on_completed now interviewId PAUSE None r s Hget Hst)
      as [m ->].
    exists s. split; [exact Hget | apply same_but_heartbeat_refl].
  - rewrite resume_not_resumable with (session := s);
      [| exact Hget | unfold InterviewSession.isResumable; rewrite Hst;
                      reflexivity].
    exists s. split; [exact Hget | apply same_but_heartbeat_refl].
  - unfold updateHeartbeat, InMemoryInterviewRepository.updateHeartbeat.
    rewrite Hget. cbn [fst]. eexists.
    rewrite getById_write_back, decide_True by reflexivity.
    split; [reflexivity |]. unfold same_but_heartbeat. cbn. repeat split.
Qed.

Lemma sample_completed_reachable : reachable sample_completed.
Proof. repeat constructor. Qed.

Lemma completed_session_is_final_witness :
  match getById "s1" sample_completed with
  | Some s =>
      exists s',
        getById "s1" (run 9 (Resume "s1") sample_completed) = Some s' /\
        state s' = COMPLETED
  | None => False
  end.
Proof.
  destruct (getById "s1" sample_completed) as [s |] eqn:Hget.
  - assert (state s = COMPLETED) as Hst.
    { vm_compute in Hget. injection Hget as <-. reflexivity. }
    destruct (completed_session_is_final 9 (Resume "s1") sample_completed
                "s1" s sample_completed_reachable Hget Hst)
      as (s' & Hget' & Hsame); [discriminate |].
    exists s'. split; [exact Hget' |].
    unfold same_but_heartbeat in Hsame. rewrite <- Hst. tauto.
  - vm_compute in Hget. discriminate Hget.
Defined.

Lemma ok_result_touched now event data s s' x :
  next_on_session now event data s = (s', Ok x) ->
  set_updatedAt now s' = s'.
Proof.
  unfold next_on_session, bind.
  destruct (validate event s) as [s1 [[] | e1]]; [| discriminate].
  destruct (side_effects now event data s1) as [s2 [p | e2]]; [| discriminate].
  destruct (resolve_next_state now event s2) as [s3 [st | e3]];
    [| discriminate].
  cbn. intros [= <- _]. reflexivity.
Qed.

(** A dispatch whose steps succeed stores the session object exactly as
    the steps left it. *)
Lemma next_ok_stored now k event data r s s' st p :
  getById k r = Some s ->
  next_on_session now event data s = (s', Ok (st, p)) ->
  exists r',
    next now k event data r
    = (r', Ok (mkResponse st (mapStateToScreen st) p)) /\
    getById k r' = Some s' /\
    (forall k0, k0 <> k -> k0 <> id s' -> getById k0 r' = getById k0 r).
Proof.
  intros Hget Hon.
  destruct (next_committed now _ _ _ _ _ _ _ _ Hget Hon)
    as [Hnext (stored & Hstored & Hsame)].
  eexists. split; [exact Hnext |]. split.
  - rewrite Hstored. f_equal.
    destruct Hsame as [-> | ->];
      [reflexivity | apply (ok_result_touched _ _ _ _ _ _ Hon)].
  - intros k0 Hk Hid. rewrite getById_save, getById_write_back.
    cbn. rewrite !decide_False by congruence. reflexivity.
Qed.

(** X5. [startInterview] succeeds on every store.  It returns the drawn
    id, state QUESTION, the first question of the bank, ten questions and
    1200 seconds; the stored session is in QUESTION at ordinal 0 with
    nothing asked; the user's active pointer names it, whatever it named
    before; no other session and no other user's pointer changes. *)
Theorem startInterview_opens_first_question (now : Z)
  (sessionId user roleId : string) (r : Repository) :
  exists r' question stored,
    startInterview now sessionId user roleId r
    = (r', Ok (mkStartResult sessionId QUESTION (Some question) 10 1200)) /\
    q_id question = "q1" /\
    getById sessionId r' = Some stored /\
    id stored = sessionId /\ userId stored = user /\
    state stored = QUESTION /\ previousState stored = Some INTRO /\
    currentQuestionIndex stored = 0 /\ askedQuestions stored = [] /\
    totalQuestions stored = 10 /\ completedAt stored = None /\
    lastHeartbeat stored = now /\
    activeInterviewByUser r' !! user = Some sessionId /\
    (forall k, k <> sessionId -> getById k r' = getById k r) /\
    (forall u, u <> user ->
       activeInterviewByUser r' !! u = activeInterviewByUser r !! u).
Proof.
  rewrite startInterview_steps. do 3 eexists.
  split; [reflexivity |]. split; [reflexivity |].
  split.
  { rewrite getById_save, decide_True by reflexivity. reflexivity. }
  do 9 (split; [reflexivity |]).
  split; [| split].
  - rewrite activeInterviewByUser_save. cbn.
    rewrite decide_False by discriminate. apply lookup_insert_eq.
  - intros k Hk. rewrite getById_save, getById_write_back, getById_create.
    cbn. rewrite !decide_False by congruence. reflexivity.
  - intros u Hu. rewrite activeInterviewByUser_save. cbn.
    rewrite decide_False by discriminate.
    unfold write_back, create; cbn. rewrite decide_True by discriminate. cbn.
    rewrite !lookup_insert_ne by congruence. reflexivity.
Qed.

(** X6. [submitAnswer] on a stored session in QUESTION or RECORDING
    succeeds on every store: it runs START_RECORDING (from QUESTION),
    ANSWER_SUBMITTED and PROCESSING_DONE in a row.  It returns the drawn
    answer id, 2500 ms and the feedback for the duration; the session ends
    in MICRO_FEEDBACK with that feedback attached and the decision of the
    adaptation engine for the current ordinal pending; the ordinal and
    the asked questions are as before. *)
Theorem submitAnswer_reaches_feedback (now : Z)
  (answerId interviewId audioUrl : string) (durationMs : Z) (r : Repository)
  (s : Session) :
  getById interviewId r = Some s ->
  state s = QUESTION \/ state s = RECORDING ->
  let feedback := FeedbackEngine.generateMockFeedback durationMs in
  exists r' stored,
    submitAnswer now answerId interviewId audioUrl durationMs r
    = (r', Ok (mkSubmitResult answerId 2500 (Some feedback))) /\
    getById interviewId r' = Some stored /\
    state stored = MICRO_FEEDBACK /\
    previousState stored = Some PROCESSING /\
    lastFeedback stored = Some feedback /\
    nextAction stored
    = Some (action (AdaptationEngine.decide (currentQuestionIndex s)
                      (totalQuestions s) (Some feedback))) /\
    currentQuestionIndex stored = currentQuestionIndex s /\
    askedQuestions stored = askedQuestions s /\
    completedAt stored = completedAt s.
Proof.
  intros Hget Hst feedback. unfold submitAnswer. rewrite Hget.
  set (data := Some (mkEventData (Some durationMs) (Some audioUrl)
                       (Some answerId))).
  assert (exists r1 recording,
            (if decide (state s = QUESTION)
             then next now interviewId START_RECORDING None r
             else (r, Ok (mkResponse (state s) (mapStateToScreen (state s))
                            PayloadEmpty)))
            = (r1, Ok (mkResponse (state recording)
                         (mapStateToScreen (state recording)) PayloadEmpty)) /\
            getById interviewId r1 = Some recording /\
            state recording = RECORDING /\
            currentQuestionIndex recording = currentQuestionIndex s /\
            totalQuestions recording = totalQuestions s /\
            askedQuestions recording = askedQuestions s /\
            completedAt recording = completedAt s)
    as (r1 & recording & -> & Hget1 & Hst1 & Hidx1 & Htot1 & Hasked1 & Hdone1).
  { destruct Hst as [Hst | Hst].
    - rewrite decide_True by exact Hst.
      destruct (next_ok_stored now interviewId START_RECORDING None r s _ _ _
                  Hget (start_recording_on_session now None s Hst))
        as (r1 & Hnext & Hget1 & _).
      exists r1, (InterviewSession.transition now RECORDING s).
      split; [exact Hnext |]. split; [exact Hget1 |]. repeat split.
    - rewrite decide_False by congruence.
      exists r, s. rewrite Hst. repeat split; assumption. }
  destruct (next_ok_stored now interviewId ANSWER_SUBMITTED data r1 recording
              _ _ _ Hget1 (answer_submitted_on_session now data recording Hst1))
    as (r2 & -> & Hget2 & _).
  match type of Hget2 with
  | _ = Some ?x => set (processing := x) in *
  end.
  destruct (next_ok_stored now interviewId PROCESSING_DONE None r2 processing
              _ _ _ Hget2
              (processing_done_on_session now None processing eq_refl))
    as (r3 & -> & Hget3 & _).
  exists r3. eexists. split; [reflexivity |]. split; [exact Hget3 |].
  cbn. rewrite Hidx1, Htot1, Hasked1, Hdone1. repeat split.
Qed.

Lemma sample_started_reachable : reachable sample_started.
Proof. repeat constructor. Qed.

Lemma submitAnswer_reaches_feedback_witness :
  match getById "s1" sample_started with
  | Some s =>
      exists r' stored,
        (submitAnswer 1 "a1" "s1" "audio.mp3" 90000 sample_started).1 = r' /\
        getById "s1" r' = Some stored /\
        state stored = MICRO_FEEDBACK /\
        score <$> lastFeedback stored = Some 4
  | None => False
  end.
Proof.
  destruct (getById "s1" sample_started) as [s |] eqn:Hget.
  - assert (state s = QUESTION) as Hst.
    { vm_compute in Hget. injection Hget as <-. reflexivity. }
    destruct (submitAnswer_reaches_feedback 1 "a1" "s1" "audio.mp3" 90000
                sample_started s Hget (or_introl Hst))
      as (r' & stored & Hrun & Hget' & Hst' & _ & Hfb & _).
    exists r', stored. rewrite Hrun, Hfb. repeat split; assumption.
  - vm_compute in Hget. discriminate Hget.
Defined.

(** X7. [submitAnswer] on a stored session in any state but QUESTION and
    RECORDING fails with InvalidTransition, naming the state and
    ANSWER_SUBMITTED, and leaves the store as it is. *)
Theorem submitAnswer_rejected_elsewhere (now : Z)
  (answerId interviewId audioUrl : string) (durationMs : Z) (r : Repository)
  (s : Session) :
  getById interviewId r = Some s ->
  state s <> QUESTION ->
  state s <> RECORDING ->
  submitAnswer now answerId interviewId audioUrl durationMs r
  = (r, Err (InvalidTransitionError
               (CannotTransition (state s) ANSWER_SUBMITTED))).
Proof.
  intros Hget Hq Hrec. unfold submitAnswer. rewrite Hget.
  rewrite decide_False by exact Hq.
  rewrite (next_rejected now interviewId ANSWER_SUBMITTED _ r s
             (InvalidTransitionError
                (CannotTransition (state s) ANSWER_SUBMITTED)) Hget);
    [reflexivity |].
  rewrite validate_absent; [reflexivity |].
  destruct (state s); try reflexivity; congruence.
Qed.

Lemma submitAnswer_rejected_elsewhere_witness :
  (submitAnswer 5 "a2" "s1" "audio.mp3" 1000 sample_paused).2
  = Err (InvalidTransitionError (CannotTransition PAUSED ANSWER_SUBMITTED)).
Proof.
  destruct (getById "s1" sample_paused) as [s |] eqn:Hget.
  - assert (state s = PAUSED) as Hst.
    { vm_compute in Hget. injection Hget as <-. reflexivity. }
    rewrite (submitAnswer_rejected_elsewhere 5 "a2" "s1" "audio.mp3" 1000
               sample_paused s Hget); rewrite Hst; [reflexivity | ..];
      discriminate.
  - vm_compute in Hget. discriminate Hget.
Defined.

(** X8. [continue] on a stored session that is neither in MICRO_FEEDBACK
    nor in CHECKPOINT fails with InvalidTransition before any dispatch,
    and leaves the store as it is. *)
Theorem continue_rejected_elsewhere (now : Z) (interviewId : string)
  (r : Repository) (s : Session) :
  getById interviewId r = Some s ->
  state s <> MICRO_FEEDBACK ->
  state s <> CHECKPOINT ->
  continue now interviewId r
  = (r, Err (InvalidTransitionError (CannotContinue (state s)))).
Proof.
  intros Hget Hfb Hcp. unfold continue. rewrite Hget.
  rewrite !decide_False by assumption. reflexivity.
Qed.

Lemma continue_rejected_elsewhere_witness :
  continue 5 "s1" sample_paused
  = (sample_paused, Err (InvalidTransitionError (CannotContinue PAUSED))).
Proof.
  destruct (getById "s1" sample_paused) as [s |] eqn:Hget.
  - assert (state s = PAUSED) as Hst.
    { vm_compute in Hget. injection Hget as <-. reflexivity. }
    rewrite (continue_rejected_elsewhere 5 "s1" sample_paused s Hget);
      rewrite Hst; [reflexivity | ..]; discriminate.
  - vm_compute in Hget. discriminate Hget.
Defined.

(** X9. On a reachable store [continue] on a session in CHECKPOINT
    succeeds: the session goes to QUESTION with the ordinal advanced by
    one and the question at the new ordinal is returned; the asked
    questions are left as they are, the question answered before the
    checkpoint is not appended. *)
Theorem continue_after_checkpoint (now : Z) (interviewId : string)
  (r : Repository) (s : Session) :
  reachable r ->
  getById interviewId r = Some s ->
  state s = CHECKPOINT ->
  exists r' question stored,
    continue now interviewId r
    = (r', Ok (mkContinueResult QUESTION QuestionScreen (Some question) None)) /\
    QuestionEngine.getQuestion (currentQuestionIndex s + 1)
    = Ok (Some question) /\
    getById interviewId r' = Some stored /\
    state stored = QUESTION /\
    currentQuestionIndex stored = currentQuestionIndex s + 1 /\
    askedQuestions stored = askedQuestions s.
Proof.
  intros Hreach Hget Hst.
  destruct (reachable_sound r Hreach _ _ Hget) as [_ [Hok _ _ _]].
  pose proof (ok_checkpoint _ Hok Hst) as Hroom.
  pose proof (ok_index _ Hok) as Hpos.
  destruct (getQuestion_in_range (currentQuestionIndex s + 1)) as [q Hq];
    [lia |].
  destruct (next_ok_stored now interviewId CHECKPOINT_ACK None r s _ _ _ Hget
              (checkpoint_ack_on_session now None s _ Hst Hq))
    as (r' & Hnext & Hget' & _).
  unfold continue. rewrite Hget, Hst.
  rewrite decide_False by discriminate. rewrite decide_True by reflexivity.
  rewrite Hnext. do 3 eexists. split; [reflexivity |].
  split; [exact Hq |]. split; [exact Hget' |]. repeat split.
Qed.

(** X10. [pause] on a stored session in QUESTION, MICRO_FEEDBACK or
    CHECKPOINT succeeds on every store: the session goes to PAUSED and
    remembers the state it was paused from; its ordinal, asked questions,
    feedback, pending decision and heartbeat are as before. *)
Theorem pause_remembers_state (now : Z) (interviewId : string)
  (r : Repository) (s : Session) :
  getById interviewId r = Some s ->
  state s ∈ [QUESTION; MICRO_FEEDBACK; CHECKPOINT] ->
  exists r' stored,
    pause now interviewId r = (r', Ok tt) /\
    getById interviewId r' = Some stored /\
    state stored = PAUSED /\
    previousState stored = Some (state s) /\
    currentQuestionIndex stored = currentQuestionIndex s /\
    askedQuestions stored = askedQuestions s /\
    lastFeedback stored = lastFeedback s /\
    nextAction stored = nextAction s /\
    lastHeartbeat stored = lastHeartbeat s.
Proof.
  intros Hget Hst.
  destruct (next_ok_stored now interviewId PAUSE None r s _ _ _ Hget
              (pause_on_session now None s Hst)) as (r' & Hnext & Hget' & _).
  unfold pause. rewrite Hnext. do 2 eexists.
  split; [reflexivity |]. split; [exact Hget' |]. repeat split.
Qed.

Lemma pause_remembers_state_witness :
  exists stored,
    getById "s1" (pause 2 "s1" sample_started).1 = Some stored /\
    state stored = PAUSED /\ previousState stored = Some QUESTION.
Proof.
  destruct (getById "s1" sample_started) as [s |] eqn:Hget.
  - assert (state s = QUESTION) as Hst.
    { vm_compute in Hget. injection Hget as <-. reflexivity. }
    destruct (pause_remembers_state 2 "s1" sample_started s Hget)
      as (r' & stored & Hrun & Hget' & Hpaused & Hprev & _).
    + rewrite Hst. set_solver.
    + exists stored. rewrite Hrun. rewrite Hst in Hprev.
      repeat split; assumption.
  - vm_compute in Hget. discriminate Hget.
Defined.

(** X11. On a reachable store [resume] on a session in PAUSED succeeds:
    the session goes to QUESTION, whatever state it was paused from, at
    the ordinal it had; its heartbeat is set to the current instant; the
    question at its ordinal is returned with the welcome message. *)
Theorem resume_returns_to_question (now : Z) (interviewId : string)
  (r : Repository) (s : Session) :
  reachable r ->
  getById interviewId r = Some s ->
  state s = PAUSED ->
  exists r' question stored,
    resume now interviewId r
    = (r', Ok (mkResumeResult QUESTION QuestionScreen (Some question)
                 WelcomeBack)) /\
    QuestionEngine.getQuestion (currentQuestionIndex s) = Ok (Some question) /\
    getById interviewId r' = Some stored /\
    state stored = QUESTION /\
    previousState stored = Some PAUSED /\
    currentQuestionIndex stored = currentQuestionIndex s /\
    askedQuestions stored = askedQuestions s /\
    nextAction stored = nextAction s /\
    lastHeartbeat stored = now.
Proof.
  intros Hreach Hget Hst.
  destruct (reachable_sound r Hreach _ _ Hget) as [_ [Hok Hlt _ _]].
  pose proof (ok_index _ Hok) as Hpos.
  destruct (getQuestion_in_range (currentQuestionIndex s)) as [q Hq]; [lia |].
  set (touched := InterviewSession.updateHeartbeat now s).
  set (r0 := save now touched (write_back interviewId touched r)).
  assert (getById interviewId r0 = Some touched) as Hget0.
  { subst r0. rewrite getById_save, getById_write_back.
    rewrite (decide_True (P := interviewId = interviewId)) by reflexivity.
    case_decide; reflexivity. }
  destruct (next_ok_stored now interviewId RESUME None r0 touched _ _ _ Hget0
              (resume_on_session now None touched _ Hst Hq))
    as (r' & Hnext & Hget' & _).
  unfold resume. rewrite Hget.
  replace (InterviewSession.isResumable s) with true
    by (unfold InterviewSession.isResumable; rewrite Hst; reflexivity).
  cbn [negb]. fold touched. fold r0. rewrite Hnext.
  do 3 eexists. split; [reflexivity |]. split; [exact Hq |].
  split; [exact Hget' |]. repeat split. cbn. rewrite Hst. reflexivity.
Qed.

Lemma resume_returns_to_question_witness :
  exists stored,
    getById "s1" (resume 3 "s1" sample_paused).1 = Some stored /\
    state stored = QUESTION /\ lastHeartbeat stored = 3.
Proof.
  destruct (getById "s1" sample_paused) as [s |] eqn:Hget.
  - assert (state s = PAUSED) as Hst.
    { vm_compute in Hget. injection Hget as <-. reflexivity. }
    destruct (resume_returns_to_question 3 "s1" sample_paused s
                sample_paused_reachable Hget Hst)
      as (r' & question & stored & Hrun & _ & Hget' & Hq & _ & _ & _ & _ & Hbeat).
    exists stored. rewrite Hrun. repeat split; assumption.
  - vm_compute in Hget. discriminate Hget.
Defined.

Lemma reachable_run_all calls r : reachable r -> reachable (run_all calls r).
Proof.
  revert r. induction calls as [| [now c] calls IH]; intros r Hr;
    [exact Hr |].
  apply IH. constructor. exact Hr.
Qed.

Lemma sample_checkpoint_reachable : reachable sample_checkpoint.
Proof. apply reachable_run_all, sample_started_reachable. Qed.

Lemma continue_after_checkpoint_witness :
  exists stored,
    getById "s1" (continue 11 "s1" sample_checkpoint).1 = Some stored /\
    state stored = QUESTION /\ currentQuestionIndex stored = 5 /\
    askedQuestions stored = ["q1"; "q2"; "q3"; "q4"].
Proof.
  destruct (getById "s1" sample_checkpoint) as [s |] eqn:Hget.
  - assert (state s = CHECKPOINT /\ currentQuestionIndex s = 4 /\
            askedQuestions s = ["q1"; "q2"; "q3"; "q4"])
      as (Hst & Hidx & Hasked).
    { vm_compute in Hget. injection Hget as <-. repeat split. }
    destruct (continue_after_checkpoint 11 "s1" sample_checkpoint s
                sample_checkpoint_reachable Hget Hst)
      as (r' & question & stored & Hrun & _ & Hget' & Hq & Hi & Ha).
    exists stored. rewrite Hrun, Hi, Ha, Hidx, Hasked.
    repeat split; assumption.
  - vm_compute in Hget. discriminate Hget.
Defined.

(** X12. On a reachable store [getState] never fails on a stored
    session: it reports the state of the session and the screen mapped
    to it; in QUESTION the payload carries the question at the ordinal. *)
Theorem getState_reports_stored_state (interviewId : string) (r : Repository)
  (s : Session) :
  reachable r ->
  getById interviewId r = Some s ->
  exists payload,
    getState interviewId r
    = Ok (mkResponse (state s) (mapStateToScreen (state s)) payload) /\
    (state s = QUESTION ->
     exists question,
       QuestionEngine.getQuestion (currentQuestionIndex s)
       = Ok (Some question) /\
       payload
       = PayloadQuestionProgress (Some question)
           (mkRatio (currentQuestionIndex s) (totalQuestions s))).
Proof.
  intros Hreach Hget.
  destruct (reachable_sound r Hreach _ _ Hget) as [_ [Hok Hlt _ _]].
  pose proof (ok_index _ Hok) as Hpos.
  destruct (getQuestion_in_range (currentQuestionIndex s)) as [q Hq]; [lia |].
  unfold getState. rewrite Hget, Hq.
  destruct (state s); eexists; (split; [reflexivity |]);
    intros Hst; try discriminate Hst.
  exists q. split; reflexivity.
Qed.

Lemma getState_reports_stored_state_witness :
  exists payload,
    getState "s1" sample_answered
    = Ok (mkResponse MICRO_FEEDBACK MicroFeedbackScreen payload).
Proof.
  destruct (getById "s1" sample_answered) as [s |] eqn:Hget.
  - assert (state s = MICRO_FEEDBACK) as Hst.
    { vm_compute in Hget. injection Hget as <-. reflexivity. }
    destruct (getState_reports_stored_state "s1" sample_answered s
                sample_answered_reachable Hget) as (payload & Hrun & _).
    exists payload. rewrite Hrun, Hst. reflexivity.
  - vm_compute in Hget. discriminate Hget.
Defined.

(** X13. After [startInterview] with a non-empty id, on any store,
    [getActiveInterview] for the user reports the new interview: as
    resumable, with its id, state QUESTION and ordinal 0 of 10, while no
    more than 24 hours have passed since the start, and as not resumable,
    with no interview attached, afterwards. *)
Theorem getActiveInterview_after_start (now later : Z)
  (sessionId user roleId : string) (r : Repository) :
  sessionId <> "" ->
  let r' := (startInterview now sessionId user roleId r).1 in
  (later - now <= 24 * 3600000 ->
   getActiveInterview later user r'
   = Some (mkActiveInterview true
             (Some (mkActiveInterviewView sessionId QUESTION 0 10 now
                      (mkRatio 0 10))))) /\
  (24 * 3600000 < later - now ->
   getActiveInterview later user r' = Some (mkActiveInterview false None)).
Proof.
  intros Hid r'.
  assert (getActiveByUserId user r'
          = Some (InterviewSession.transition now QUESTION
                    (InterviewSession.new now sessionId user roleId INTRO None
                       0 [] QuestionEngine.getTotalQuestions))) as Hactive.
  { subst r'. rewrite startInterview_steps. cbn [fst].
    unfold getActiveByUserId. rewrite activeInterviewByUser_save. cbn.
    rewrite decide_False by discriminate. rewrite lookup_insert_eq.
    rewrite decide_False by exact Hid.
    rewrite getById_save, decide_True by reflexivity. reflexivity. }
  unfold getActiveInterview. rewrite Hactive.
  unfold InterviewSession.isExpired, InterviewSession.isResumable. cbn.
  change (24 * (1000 * 60 * 60)) with 86400000.
  change (bool_decide (QUESTION ∈ [PAUSED; QUESTION; MICRO_FEEDBACK; CHECKPOINT]))
    with true.
  rewrite Z.gtb_ltb. split; intros Hlate.
  - destruct (Z.ltb_spec 86400000 (later - now)); [lia | reflexivity].
  - destruct (Z.ltb_spec 86400000 (later - now)); [reflexivity | lia].
Qed.

Lemma getActiveInterview_after_start_witness :
  canResume <$> getActiveInterview 100 "u1" sample_started = Some true.
Proof.
  destruct (getActiveInterview_after_start 0 100 "s1" "u1" "backend"
              InMemoryInterviewRepository.empty) as [Hearly _];
    [discriminate |].
  unfold sample_started, run. rewrite Hearly by lia. reflexivity.
Defined.

(** X14. A COMPLETE_INTERVIEW dispatch on a stored session in QUESTION
    or MICRO_FEEDBACK, on any store, fails with InvalidTransition, naming
    COMPLETED as the state: the session object is completed first and the
    table is then consulted from its new state.  The stored session is
    left COMPLETED with [completedAt] set, [save] is not reached, and the
    active index is as before. *)
Theorem complete_interview_completes_then_throws (now : Z)
  (sessionId : string) (data : option EventData) (r : Repository)
  (s : Session) :
  getById sessionId r = Some s ->
  state s = QUESTION \/ state s = MICRO_FEEDBACK ->
  exists r' stored,
    next now sessionId COMPLETE_INTERVIEW data r
    = (r', Err (InvalidTransitionError
                  (CannotTransition COMPLETED COMPLETE_INTERVIEW))) /\
    getById sessionId r' = Some stored /\
    state stored = COMPLETED /\ completedAt stored = Some now /\
    previousState stored = previousState s /\
    activeInterviewByUser r' = activeInterviewByUser r.
Proof.
  intros Hget Hst. unfold next.
  rewrite Hget, (complete_interview_on_session now data s Hst).
  do 2 eexists. split; [reflexivity |].
  rewrite getById_write_back, decide_True by reflexivity.
  split; [reflexivity |]. repeat split.
Qed.

Lemma complete_interview_completes_then_throws_witness :
  exists stored,
    getById "s1" (next 3 "s1" COMPLETE_INTERVIEW None sample_started).1
    = Some stored /\
    state stored = COMPLETED /\
    activeInterviewByUser
      (next 3 "s1" COMPLETE_INTERVIEW None sample_started).1 !! "u1"
    = Some "s1".
Proof.
  destruct (getById "s1" sample_started) as [s |] eqn:Hget.
  - assert (state s = QUESTION) as Hst.
    { vm_compute in Hget. injection Hget as <-. reflexivity. }
    destruct (complete_interview_completes_then_throws 3 "s1" None
                sample_started s Hget (or_introl Hst))
      as (r' & stored & Hrun & Hget' & Hdone & _ & _ & Hindex).
    exists stored. rewrite Hrun. cbn [fst]. rewrite Hindex.
    repeat split; first [assumption | reflexivity].
  - vm_compute in Hget. discriminate Hget.
Defined.

(** X15. Every call addressed to an id that is not stored, other than
    [startInterview], fails with NotFound naming the id and leaves the
    store as it is; so does [getState]. *)
Theorem calls_on_missing_session (now : Z) (c : Call) (r : Repository) :
  getById (target c) r = None ->
  (forall user role, c <> StartInterview (target c) user role) ->
  run now c r = r /\
  failure now c r = Some (InterviewNotFoundError (target c)) /\
  getState (target c) r = Err (InterviewNotFoundError (target c)).
Proof.
  intros Hget Hstart.
  destruct c as [sid user role | sid event data
                | answerId interviewId audioUrl durationMs | interviewId
                | interviewId | interviewId | interviewId];
    cbn [target run failure] in *.
  1: exfalso; apply (Hstart user role); reflexivity.
  all: unfold getState, submitAnswer, continue, pause, resume, updateHeartbeat,
         InMemoryInterviewRepository.updateHeartbeat;
       rewrite ?next_missing by exact Hget; rewrite ?Hget;
       repeat split.
Qed.

Lemma calls_on_missing_session_witness :
  run 1 (Pause "nobody") InMemoryInterviewRepository.empty
  = InMemoryInterviewRepository.empty /\
  failure 1 (Pause "nobody") InMemoryInterviewRepository.empty
  = Some (InterviewNotFoundError "nobody").
Proof.
  destruct (calls_on_missing_session 1 (Pause "nobody")
              InMemoryInterviewRepository.empty) as (Hrun & Hfail & _).
  - reflexivity.
  - discriminate.
  - split; assumption.
Defined.

End Calls.

Section StoreLookups.

Import InMemoryInterviewRepository.

(** X16. [create] then look up.  The session is found under its id and
    no other id is affected; a session that is not COMPLETED is returned
    as its user's active session, whatever was active before, unless its
    id is the empty string, which the active lookup takes for no pointer. *)
Theorem create_then_lookup (session : Session) (r : Repository) :
  getById (id session) (create session r) = Some session /\
  (forall k, k <> id session -> getById k (create session r) = getById k r) /\
  (state session <> COMPLETED -> id session <> "" ->
   getActiveByUserId (userId session) (create session r) = Some session) /\
  (state session <> COMPLETED -> id session = "" ->
   getActiveByUserId (userId session) (create session r) = None) /\
  (state session = COMPLETED ->
   forall u,
     activeInterviewByUser (create session r) !! u
     = activeInterviewByUser r !! u).
Proof.
  split; [rewrite getById_create, decide_True by reflexivity; reflexivity |].
  split.
  { intros k Hk. rewrite getById_create, decide_False by congruence.
    reflexivity. }
  assert (state session <> COMPLETED ->
          activeInterviewByUser (create session r) !! userId session
          = Some (id session)) as Hptr.
  { intros Hlive. unfold create. rewrite decide_True by exact Hlive. cbn.
    apply lookup_insert_eq. }
  repeat split.
  - intros Hlive Hid. unfold getActiveByUserId. rewrite (Hptr Hlive).
    rewrite decide_False by exact Hid.
    rewrite getById_create, decide_True by reflexivity. reflexivity.
  - intros Hlive Hid. unfold getActiveByUserId. rewrite (Hptr Hlive).
    rewrite decide_True by exact Hid. reflexivity.
  - intros Hdone u. unfold create.
    rewrite decide_False by (intros Hne; apply Hne, Hdone). reflexivity.
Qed.

(** X17. [save] then look up.  The session is found under its id with
    [updatedAt] set to the instant of the save and every other field as
    given; no other id is affected; the active lookup for its user returns
    nothing when the session is COMPLETED and the saved session
    otherwise (its id not being empty). *)
Theorem save_then_lookup (now : Z) (session : Session) (r : Repository) :
  exists saved,
    getById (id session) (save now session r) = Some saved /\
    updatedAt saved = now /\ same_but_updatedAt session saved /\
    (forall k, k <> id session ->
       getById k (save now session r) = getById k r) /\
    (state session = COMPLETED ->
     getActiveByUserId (userId session) (save now session r) = None) /\
    (state session <> COMPLETED -> id session <> "" ->
     getActiveByUserId (userId session) (save now session r) = Some saved).
Proof.
  exists (set_updatedAt now session).
  split; [rewrite getById_save, decide_True by reflexivity; reflexivity |].
  split; [reflexivity |]. split; [reflexivity |]. split.
  { intros k Hk. rewrite getById_save, decide_False by congruence.
    reflexivity. }
  unfold getActiveByUserId. rewrite activeInterviewByUser_save. split.
  - intros Hdone. rewrite decide_True by exact Hdone.
    rewrite lookup_delete_eq. reflexivity.
  - intros Hlive Hid. rewrite decide_False by exact Hlive.
    rewrite lookup_insert_eq, decide_False by exact Hid.
    rewrite getById_save, decide_True by reflexivity. reflexivity.
Qed.

(** X18. The store's [complete].  On a session stored under its own id
    it succeeds: the session is stored COMPLETED with [completedAt] and
    [updatedAt] at the current instant, its user has no active session
    any more, and no other id is affected.  On an id that is not stored it
    fails with NotFound and changes nothing. *)
Theorem repository_complete_closes_session (now : Z) (sessionId : string)
  (r : Repository) :
  (forall session,
     getById sessionId r = Some session -> id session = sessionId ->
     exists r' stored,
       complete now sessionId r = (r', Ok tt) /\
       getById sessionId r' = Some stored /\
       state stored = COMPLETED /\ completedAt stored = Some now /\
       updatedAt stored = now /\
       currentQuestionIndex stored = currentQuestionIndex session /\
       getActiveByUserId (userId session) r' = None /\
       (forall k, k <> sessionId -> getById k r' = getById k r)) /\
  (getById sessionId r = None ->
   complete now sessionId r = (r, Err (InterviewNotFoundError sessionId))).
Proof.
  split.
  - intros session Hget Hid. unfold complete. rewrite Hget.
    do 2 eexists. split; [reflexivity |].
    rewrite getById_save. cbn. rewrite decide_True by exact Hid.
    split; [reflexivity |]. do 4 (split; [reflexivity |]). split.
    + unfold getActiveByUserId. rewrite activeInterviewByUser_save. cbn.
      rewrite decide_True by reflexivity.
      rewrite lookup_delete_eq. reflexivity.
    + intros k Hk. rewrite getById_save. cbn.
      rewrite decide_False by congruence.
      unfold getById, write_back; cbn. apply lookup_insert_ne. congruence.
  - intros Hget. unfold complete. rewrite Hget. reflexivity.
Qed.

(** X19. The store's [delete].  The id is no longer found and no other
    id is affected; deleting an id that is not stored changes nothing; no
    user's active lookup returns the deleted session afterwards: what it
    returns was stored under another id; and the pointer of the session's
    user is kept when it names another session. *)
Theorem delete_then_lookup (sessionId : string) (r : Repository) :
  let r' := InMemoryInterviewRepository.delete sessionId r in
  getById sessionId r' = None /\
  (forall k, k <> sessionId -> getById k r' = getById k r) /\
  (getById sessionId r = None -> r' = r) /\
  (forall u s,
     getActiveByUserId u r' = Some s ->
     exists k, k <> sessionId /\ getById k r = Some s) /\
  (forall session,
     getById sessionId r = Some session ->
     activeInterviewByUser r !! userId session <> Some sessionId ->
     activeInterviewByUser r' = activeInterviewByUser r).
Proof.
  intros r'.
  assert (interviewsById r' = base.delete sessionId (interviewsById r)
          \/ r' = r /\ getById sessionId r = None) as Hmap.
  { subst r'. unfold InMemoryInterviewRepository.delete.
    destruct (getById sessionId r) as [session |];
      [left; case_decide; reflexivity | right; split; reflexivity]. }
  assert (getById sessionId r' = None) as Hgone.
  { unfold getById. destruct Hmap as [-> | [-> Hnone]];
      [apply lookup_delete_eq | exact Hnone]. }
  assert (forall k, k <> sessionId -> getById k r' = getById k r) as Hframe.
  { intros k Hk. unfold getById. destruct Hmap as [-> | [-> _]];
      [apply lookup_delete_ne; congruence | reflexivity]. }
  split; [exact Hgone |]. split; [exact Hframe |]. split.
  { intros Hnone. subst r'. unfold InMemoryInterviewRepository.delete.
    rewrite Hnone. reflexivity. }
  split.
  - intros u s. unfold getActiveByUserId.
    destruct (activeInterviewByUser r' !! u) as [i |]; [| discriminate].
    case_decide; [discriminate |]. intros Hs. exists i.
    destruct (decide (i = sessionId)) as [-> | Hne];
      [rewrite Hgone in Hs; discriminate Hs |].
    split; [exact Hne |]. rewrite <- (Hframe i Hne). exact Hs.
  - intros session Hget Hptr. subst r'.
    unfold InMemoryInterviewRepository.delete. rewrite Hget.
    rewrite decide_False by exact Hptr. reflexivity.
Qed.

Lemma built_consistent r : store_built r -> store_consistent r.
Proof.
  induction 1 as [| now op r _ IH Hids];
    [apply empty_consistent | apply apply_consistent; assumption].
Qed.

(** X20. One live session per user.  In a store built from the empty
    one by operations that reuse no id, whatever [getActiveByUserId]
    returns for a user is a session of that user, not COMPLETED, stored
    under its own id. *)
Theorem active_lookup_returns_live_session (r : Repository) (u : string)
  (s : Session) :
  store_built r ->
  getActiveByUserId u r = Some s ->
  userId s = u /\ state s <> COMPLETED /\ getById (id s) r = Some s.
Proof.
  intros Hbuilt. destruct (built_consistent r Hbuilt) as [Hkeys Hindex].
  unfold getActiveByUserId.
  destruct (activeInterviewByUser r !! u) as [i |] eqn:Hu; [| discriminate].
  case_decide; [discriminate |]. intros Hs.
  destruct (Hindex u i Hu) as (s0 & Hs0 & Howner & Hlive).
  unfold getById in Hs. rewrite Hs0 in Hs. injection Hs as <-.
  split; [exact Howner |]. split; [exact Hlive |].
  unfold getById. rewrite (Hkeys _ _ Hs0). exact Hs0.
Qed.

Lemma active_lookup_returns_live_session_witness :
  userId sample_session = "u1" /\ state sample_session <> COMPLETED.
Proof.
  destruct (active_lookup_returns_live_session
              (apply 0 (OpCreate sample_session)
                 InMemoryInterviewRepository.empty) "u1" sample_session)
    as (Howner & Hlive & _).
  - apply store_built_apply; [apply store_built_empty | reflexivity].
  - reflexivity.
  - split; assumption.
Defined.

End StoreLookups.

Section Components.

(** X21. The state manager agrees with itself: [transition] returns a
    state exactly when [canTransition] holds and [assertTransition]
    passes, fails with InvalidTransition naming the state and the event
    otherwise, and never reaches its "no next state" error; the events
    [getValidEvents] lists are those [canTransition] accepts. *)
Theorem state_manager_agrees (st : InterviewState) (ev : InterviewEvent) :
  (StateManager.canTransition st ev = true <->
   exists target, StateManager.transition st ev = Ok target) /\
  (StateManager.canTransition st ev = true <->
   StateManager.assertTransition st ev = Ok tt) /\
  (StateManager.canTransition st ev = false <->
   StateManager.transition st ev
   = Err (InvalidTransitionError (CannotTransition st ev))) /\
  StateManager.transition st ev <> Err (NoNextState st ev) /\
  (ev ∈ StateManager.getValidEvents st <->
   StateManager.canTransition st ev = true).
Proof.
  assert (ev ∈ StateManager.getValidEvents st <->
          StateManager.canTransition st ev = true) as Hlisted.
  { unfold StateManager.canTransition, StateManager.getValidEvents.
    symmetry. apply bool_decide_eq_true. }
  destruct (entry ev (INTERVIEW_STATE_TRANSITIONS st)) as [target |] eqn:Hentry.
  - destruct (transition_present st ev target Hentry) as [Hassert Htrans].
    assert (StateManager.canTransition st ev = true) as Hcan.
    { rewrite canTransition_entry, Hentry. reflexivity. }
    rewrite Hassert, Htrans, Hcan.
    repeat split; eauto; try discriminate; try tauto.
  - assert (StateManager.canTransition st ev = false) as Hcan.
    { rewrite canTransition_entry, Hentry. reflexivity. }
    pose proof (assertTransition_absent st ev Hentry) as Hassert.
    unfold StateManager.transition. rewrite Hassert, Hcan.
    repeat split; try discriminate; try tauto.
    + intros [target Htarget]. discriminate Htarget.
    + intros Hin. apply Hlisted in Hin. congruence.
Qed.

(** X22. The shape of the transition table: no transition enters INTRO
    or ERROR, none leaves COMPLETED or ERROR, PAUSED is left by RESUME
    alone, and RESUME is accepted in PAUSED alone. *)
Theorem table_shape (st target : InterviewState) (ev : InterviewEvent) :
  StateManager.transition st ev = Ok target ->
  target <> INTRO /\ target <> ERROR /\
  st <> COMPLETED /\ st <> ERROR /\
  (st = PAUSED <-> ev = RESUME).
Proof.
  destruct st, ev; vm_compute; intros [= <-];
    repeat split; intros; congruence.
Qed.

Lemma table_shape_witness :
  QUESTION <> INTRO /\ (PAUSED = PAUSED <-> RESUME = RESUME).
Proof.
  destruct (table_shape PAUSED QUESTION RESUME) as (H1 & _ & _ & _ & H5);
    [reflexivity | split; assumption].
Defined.

(** X23. Distinct states are shown on distinct screens, and the error
    screen stands for ERROR alone. *)
Theorem screens_tell_states_apart (a b : InterviewState) :
  (mapStateToScreen a = mapStateToScreen b -> a = b) /\
  (mapStateToScreen a = ErrorScreen <-> a = ERROR).
Proof.
  split; [destruct a, b; cbn; intros; congruence |].
  destruct a; cbn; split; intros; congruence.
Qed.

(** X24. The question bank at its bounds: [getQuestion] throws exactly
    when [hasMoreQuestions] is false, that is from the size of the bank
    on; it returns a question exactly for the ordinals from 0 up to the
    size; below 0 it does not throw and returns [undefined]. *)
Theorem question_bank_bounds (i : Z) :
  (QuestionEngine.hasMoreQuestions i = false <->
   QuestionEngine.getQuestion i = Err NoMoreQuestions) /\
  (QuestionEngine.hasMoreQuestions i = false <->
   QuestionEngine.getTotalQuestions <= i) /\
  (0 <= i < QuestionEngine.getTotalQuestions <->
   exists q, QuestionEngine.getQuestion i = Ok (Some q)) /\
  (i < 0 <-> QuestionEngine.getQuestion i = Ok None).
Proof.
  assert (QuestionEngine.hasMoreQuestions i = false <->
          QuestionEngine.getTotalQuestions <= i) as Hmore.
  { unfold QuestionEngine.hasMoreQuestions, QuestionEngine.getTotalQuestions.
    destruct (Z.ltb_spec i (Z.of_nat (length MOCK_QUESTIONS)));
      split; intros; first [lia | congruence]. }
  destruct (Z.lt_ge_cases i QuestionEngine.getTotalQuestions) as [Hlt | Hge].
  - destruct (Z.lt_ge_cases i 0) as [Hneg | Hpos].
    + assert (QuestionEngine.getQuestion i = Ok None) as Hq.
      { unfold QuestionEngine.getQuestion. rewrite Z.geb_leb.
        change (Z.of_nat (length MOCK_QUESTIONS)) with 10.
        destruct (Z.leb_spec 10 i); [lia |].
        destruct (Z.ltb_spec i 0); [reflexivity | lia]. }
      rewrite Hq, Hmore.
      repeat split; intros; try lia; try congruence.
      destruct H as [q Hq']. discriminate Hq'.
    + destruct (getQuestion_in_range i) as [q Hq]; [lia |].
      rewrite Hq, Hmore.
      repeat split; intros; try lia; try congruence; eauto.
  - rewrite (getQuestion_beyond i Hge), Hmore.
    change QuestionEngine.getTotalQuestions with 10 in *.
    repeat split; intros; try lia; try congruence.
    destruct H as [q Hq']. discriminate Hq'.
Qed.

(** X25. Whatever the duration, the feedback has a score from 2 to 4,
    hence within the 1 to 5 of the feedback record, a message taken from
    the list, at most one flag, strengths exactly when the score is 4
    and improvements exactly when a flag is raised. *)
Theorem feedback_is_well_formed (d : Z) :
  let f := FeedbackEngine.generateMockFeedback d in
  2 <= score f <= 4 /\
  message f ∈ FeedbackEngine.messages /\
  (length (flags f) <= 1)%nat /\
  (strengths f <> [] <-> score f = 4) /\
  (improvements f <> [] <-> flags f <> []).
Proof.
  unfold FeedbackEngine.generateMockFeedback.
  rewrite Z.geb_leb, Z.gtb_ltb.
  destruct (Z.ltb_spec d 30000) as [Hshort | Hshort];
    [| destruct (Z.ltb_spec 300000 d) as [Hlong | Hlong];
       [| destruct (Z.leb_spec 60000 d) as [Hlow | Hlow];
          destruct (Z.leb_spec d 180000) as [Hhigh | Hhigh] ] ];
    cbn [andb]; cbv zeta;
    cbn [score flags strengths improvements partial message length];
    (split; [lia |]); (split; [vm_compute; set_solver |]);
    (split; [lia |]); split; split; intros; congruence.
Qed.

(** X26. For an ordinal and a total that are safe integers, where the
    source's arithmetic on doubles is exact, the two predicates of the
    adaptation engine never hold together; completion is due from the
    last ordinal on, a checkpoint after every fifth answer before that;
    with ten questions the only checkpoint is at ordinal 4, the one due at
    ordinal 9 giving way to completion. *)
Theorem checkpoint_and_completion_exclude (i total : Z)
  (feedback : option Feedback) :
  safe_integer i ->
  safe_integer total ->
  ~ (AdaptationEngine.shouldActivateCheckpoint i total feedback = true /\
     AdaptationEngine.shouldComplete i total feedback = true) /\
  (AdaptationEngine.shouldComplete i total feedback = true <->
   total - 1 <= i) /\
  (AdaptationEngine.shouldActivateCheckpoint i total feedback = true <->
   0 < i < total - 1 /\ (i + 1) mod 5 = 0) /\
  (AdaptationEngine.shouldActivateCheckpoint i 10 feedback = true <-> i = 4).
Proof.
  intros _ _.
  assert (forall t,
            AdaptationEngine.shouldActivateCheckpoint i t feedback = true <->
            0 < i < t - 1 /\ (i + 1) mod 5 = 0) as Hcheck.
  { intros t. unfold AdaptationEngine.shouldActivateCheckpoint.
    rewrite bool_decide_eq_true. unfold AdaptationEngine.decide.
    rewrite Z.geb_leb, Z.gtb_ltb.
    destruct (Z.leb_spec (t - 1) i); cbn; [split; [discriminate | lia] |].
    destruct (Z.ltb_spec 0 i); cbn [andb];
      [| cbn; split; [discriminate | lia]].
    rewrite Z.rem_mod_nonneg by lia.
    destruct (Z.eqb_spec ((i + 1) mod 5) 0); cbn;
      split; intros; first [discriminate | tauto | lia | split; [lia | assumption]]. }
  assert (AdaptationEngine.shouldComplete i total feedback = true <->
          total - 1 <= i) as Hdone.
  { unfold AdaptationEngine.shouldComplete.
    rewrite bool_decide_eq_true. unfold AdaptationEngine.decide.
    rewrite Z.geb_leb.
    destruct (Z.leb_spec (total - 1) i); cbn; [tauto |].
    destruct (_ && _); cbn; split; intros; first [discriminate | lia]. }
  split; [rewrite Hcheck, Hdone; lia |]. split; [exact Hdone |].
  split; [apply Hcheck |]. rewrite Hcheck. split.
  - intros [Hrange Hmod].
    assert (i = 1 \/ i = 2 \/ i = 3 \/ i = 4 \/ i = 5 \/ i = 6 \/ i = 7 \/
            i = 8) as Hcases by lia.
    destruct Hcases as [-> | [-> | [-> | [-> | [-> | [-> | [-> | ->]]]]]]];
      first [reflexivity | discriminate Hmod].
  - intros ->. split; [lia | reflexivity].
Qed.

(** The fifth and the last of ten questions. *)
Lemma checkpoint_and_completion_exclude_witness :
  safe_integer 4 /\ safe_integer 9 /\ safe_integer 10 /\
  AdaptationEngine.shouldActivateCheckpoint 4 10 None = true /\
  AdaptationEngine.shouldComplete 9 10 None = true.
Proof.
  assert (safe_integer 4) as Hfifth by (unfold safe_integer; lia).
  assert (safe_integer 9) as Hlast by (unfold safe_integer; lia).
  assert (safe_integer 10) as Htotal by (unfold safe_integer; lia).
  destruct (checkpoint_and_completion_exclude 4 10 None Hfifth Htotal)
    as (_ & _ & _ & Hcheck).
  destruct (checkpoint_and_completion_exclude 9 10 None Hlast Htotal)
    as (_ & Hdone & _).
  split; [exact Hfifth |]. split; [exact Hlast |]. split; [exact Htotal |].
  split.
  - apply Hcheck. reflexivity.
  - apply Hdone. lia.
Defined.

End Components.

Section Frame.

Import InMemoryInterviewRepository InterviewOrchestrator.

(** The fields no dispatch writes, and the two that only grow. *)
Lemma next_on_session_frame now event data s :
  let s' := (next_on_session now event data s).1 in
  id s' = id s /\ userId s' = userId s /\ roleId s' = roleId s /\
  totalQuestions s' = totalQuestions s /\
  confidenceTrend s' = confidenceTrend s /\
  checkpointHistory s' = checkpointHistory s /\ answers s' = answers s /\
  blueprintId s' = blueprintId s /\ createdAt s' = createdAt s /\
  lastHeartbeat s' = lastHeartbeat s /\
  (currentQuestionIndex s' = currentQuestionIndex s /\
   askedQuestions s' = askedQuestions s \/
   currentQuestionIndex s' = currentQuestionIndex s + 1 /\
   (askedQuestions s' = askedQuestions s \/
    exists q, askedQuestions s' = (askedQuestions s ++ [q])%list)).
Proof.
  unfold next_on_session, validate, side_effects, resolve_next_state,
    question_id, bind, read, lift, throw, ret, mutate.
  destruct event; cbn;
    repeat case_match; simplify_eq; cbn; repeat split; eauto 6.
Qed.

Section Preserved.

(** A property of session objects that the session-level steps keep
    holds of every session of every reachable store. *)
Variable P : Session -> Prop.
Hypothesis P_next :
  forall now event data s, P s -> P (next_on_session now event data s).1.
Hypothesis P_updatedAt : forall now s, P s -> P (set_updatedAt now s).
Hypothesis P_lastHeartbeat : forall now s, P s -> P (set_lastHeartbeat now s).
Hypothesis P_new :
  forall now sessionId user roleId,
    P (InterviewSession.new now sessionId user roleId INTRO None 0 []
         QuestionEngine.getTotalQuestions).

Lemma kept_insert k s r byUser :
  P s -> all_stored P r ->
  all_stored P (mkRepository (<[k := s]> (interviewsById r)) byUser).
Proof.
  intros Hs Hr k' s'. cbn. rewrite lookup_insert.
  case_decide; [intros [= <-]; exact Hs | apply Hr].
Qed.

Lemma kept_write_back k s r :
  P s -> all_stored P r -> all_stored P (write_back k s r).
Proof. apply kept_insert. Qed.

Lemma kept_save now s r :
  P s -> all_stored P r -> all_stored P (save now s r).
Proof.
  intros Hs Hr. unfold save.
  case_decide; apply kept_insert; auto.
Qed.

Lemma kept_create s r : P s -> all_stored P r -> all_stored P (create s r).
Proof.
  intros Hs Hr. unfold create. case_decide; apply kept_insert; auto.
Qed.

Lemma kept_next now k event data r :
  all_stored P r -> all_stored P (next now k event data r).1.
Proof.
  intros Hr. unfold next.
  destruct (getById k r) as [s |] eqn:Hget; [| exact Hr].
  pose proof (P_next now event data s (Hr _ _ Hget)) as Hs.
  destruct (next_on_session now event data s) as [s' [[st p] | e]];
    cbn [fst] in *.
  - apply kept_save, kept_write_back; assumption.
  - apply kept_write_back; assumption.
Qed.

Lemma kept_run now c r : all_stored P r -> all_stored P (run now c r).
Proof.
  intros Hr.
  destruct c as [sid user role | sid event data
                | answerId interviewId audioUrl durationMs | interviewId
                | interviewId | interviewId | interviewId]; cbn [run].
  - unfold startInterview.
    match goal with
    | |- context [next ?n ?i ?e ?d ?r0] =>
        assert (all_stored P (next n i e d r0).1) as Hn
          by (apply kept_next, kept_create; [apply P_new | exact Hr]);
        destruct (next n i e d r0) as [r1 [res | err]]
    end; exact Hn.
  - apply kept_next, Hr.
  - unfold submitAnswer.
    destruct (getById interviewId r) as [session |]; [| exact Hr].
    assert (all_stored P
              (if decide (state session = QUESTION)
               then next now interviewId START_RECORDING None r
               else (r, Ok (mkResponse (state session)
                              (mapStateToScreen (state session))
                              PayloadEmpty))).1) as Hr1.
    { case_decide; [apply kept_next, Hr | exact Hr]. }
    destruct (if decide (state session = QUESTION) then _ else _)
      as [r1 [started | err]]; cbn [fst] in *; [| exact Hr1].
    match goal with
    | |- context [next ?n ?i ?e ?d r1] =>
        pose proof (kept_next n i e d r1 Hr1) as Hr2;
        destruct (next n i e d r1) as [r2 [res | err]]
    end; cbn [fst] in *; [| exact Hr2].
    pose proof (kept_next now interviewId PROCESSING_DONE None r2 Hr2) as Hr3.
    destruct (next now interviewId PROCESSING_DONE None r2)
      as [r3 [res3 | err]]; exact Hr3.
  - unfold continue.
    destruct (getById interviewId r) as [session |]; [| exact Hr].
    repeat case_decide; try exact Hr.
    all: match goal with
         | |- context [next ?n ?i ?e ?d ?r0] =>
             pose proof (kept_next n i e d r0 Hr) as Hn;
             destruct (next n i e d r0) as [r1 [res | err]]
         end; exact Hn.
  - unfold pause.
    pose proof (kept_next now interviewId PAUSE None r Hr) as Hn.
    destruct (next now interviewId PAUSE None r) as [r1 [res | err]];
      exact Hn.
  - unfold resume.
    destruct (getById interviewId r) as [session |] eqn:Hget; [| exact Hr].
    destruct (InterviewSession.isResumable session); cbn [negb]; [| exact Hr].
    assert (P (InterviewSession.updateHeartbeat now session)) as Hs.
    { apply P_updatedAt, P_lastHeartbeat, (Hr _ _ Hget). }
    match goal with
    | |- context [next ?n ?i ?e ?d ?r0] =>
        assert (all_stored P (next n i e d r0).1) as Hn
          by (apply kept_next, kept_save, kept_write_back; assumption);
        destruct (next n i e d r0) as [r1 [res | err]]
    end; exact Hn.
  - unfold updateHeartbeat, InMemoryInterviewRepository.updateHeartbeat.
    destruct (getById interviewId r) as [session |] eqn:Hget; [| exact Hr].
    cbn [fst]. apply kept_write_back; [| exact Hr].
    apply P_lastHeartbeat, (Hr _ _ Hget).
Qed.

Lemma reachable_preserves r : reachable r -> all_stored P r.
Proof.
  induction 1 as [| now c r _ IH].
  - intros k s. cbn. rewrite lookup_empty. discriminate.
  - apply kept_run, IH.
Qed.

End Preserved.

(** X27. What the orchestrator never records.  In every reachable
    store the answer history and the checkpoint history of a session are
    empty and its confidence trend is 0; the asked questions are never
    more than the ordinal counts. *)
Theorem history_is_never_recorded (r : Repository) (k : string) (s : Session) :
  reachable r ->
  getById k r = Some s ->
  answers s = [] /\ checkpointHistory s = [] /\ confidenceTrend s = 0%Q /\
  Z.of_nat (length (askedQuestions s)) <= currentQuestionIndex s.
Proof.
  intros Hreach Hget.
  apply (reachable_preserves
           (fun s => answers s = [] /\ checkpointHistory s = [] /\
                     confidenceTrend s = 0%Q /\
                     Z.of_nat (length (askedQuestions s))
                     <= currentQuestionIndex s)) with (r := r) (k := k);
    try assumption; try (intros; assumption).
  all: cbv beta.
  - intros now event data s0 (Ha & Hc & Ht & Hasked).
    destruct (next_on_session_frame now event data s0)
      as (_ & _ & _ & _ & Ht' & Hc' & Ha' & _ & _ & _ & Hgrow).
    cbv zeta in *. rewrite Ha', Hc', Ht'.
    repeat split; try assumption.
    destruct Hgrow as [[-> ->] | [-> [-> | [q ->]]]];
      rewrite ?length_app; cbn [length]; lia.
  - intros. cbn. repeat split. lia.
Qed.

Lemma history_is_never_recorded_witness :
  match getById "s1" sample_checkpoint with
  | Some s => answers s = [] /\ checkpointHistory s = []
  | None => False
  end.
Proof.
  destruct (getById "s1" sample_checkpoint) as [s |] eqn:Hget.
  - destruct (history_is_never_recorded sample_checkpoint "s1" s
                sample_checkpoint_reachable Hget) as (Ha & Hc & _).
    split; assumption.
  - vm_compute in Hget. discriminate Hget.
Defined.

End Frame.

Section Controller.

Import InMemoryInterviewRepository.

Lemma handleError_client e :
  client_error e ->
  reply_code (InterviewController.handleError e) = 400 \/
  reply_code (InterviewController.handleError e) = 404.
Proof. destruct e; cbn; intros []; auto. Qed.

Lemma getState_on_sound k r :
  sessions_sound (interviewsById r) ->
  (exists state, InterviewOrchestrator.getState k r = Ok state) \/
  InterviewOrchestrator.getState k r = Err (InterviewNotFoundError k).
Proof.
  intros Hr. unfold InterviewOrchestrator.getState.
  destruct (getById k r) as [s |] eqn:Hget; [left | right; reflexivity].
  destruct (Hr _ _ Hget) as [_ [Hok Hlt _ _]].
  pose proof (ok_index _ Hok) as Hpos.
  destruct (getQuestion_in_range (currentQuestionIndex s)) as [q Hq]; [lia |].
  rewrite Hq. destruct (state s); eexists; reflexivity.
Qed.

(** What a request does to the store is what the call it stands for
    does. *)
Lemma started_state now sessionId user roleId r :
  InterviewOrchestrator.getState sessionId
    (InterviewOrchestrator.startInterview now sessionId user roleId r).1
  = Ok (mkResponse QUESTION QuestionScreen
          (PayloadQuestionProgress (MOCK_QUESTIONS !! 0%nat) (mkRatio 0 10))).
Proof.
  rewrite startInterview_steps. cbn [fst].
  unfold InterviewOrchestrator.getState.
  rewrite getById_save, decide_True by reflexivity. reflexivity.
Qed.

(** What a request does to the store is what the call it stands for
    does. *)
Lemma handle_runs req now r :
  (handle now req r).1 = r \/ exists c, (handle now req r).1 = run now c r.
Proof.
  destruct req as [sid role | answerId k audioUrl durationMs | k | k | k | k
                  | | k]; cbn [handle fst]; auto; right.
  - exists (StartInterview sid InterviewController.mock_user_id role).
    unfold InterviewController.startInterview. cbn [run].
    destruct (InterviewOrchestrator.startInterview _ _ _ _ _)
      as [r1 [res | e]]; [| reflexivity].
    destruct (InterviewOrchestrator.getState _ _); reflexivity.
  - exists (SubmitAnswer answerId k audioUrl durationMs).
    unfold InterviewController.submitAnswer. cbn [run].
    destruct (InterviewOrchestrator.submitAnswer _ _ _ _ _ _)
      as [r1 [res | e]]; [| reflexivity].
    destruct (InterviewOrchestrator.getState _ _); reflexivity.
  - exists (Continue k).
    unfold InterviewController.continue. cbn [run].
    destruct (InterviewOrchestrator.continue _ _ _) as [r1 [res | e]];
      reflexivity.
  - exists (Pause k).
    unfold InterviewController.pause. cbn [run].
    destruct (InterviewOrchestrator.pause _ _ _) as [r1 [res | e]];
      reflexivity.
  - exists (Resume k).
    unfold InterviewController.resume. cbn [run].
    destruct (InterviewOrchestrator.resume _ _ _) as [r1 [res | e]];
      reflexivity.
  - exists (UpdateHeartbeat k).
    unfold InterviewController.heartbeat. cbn [run].
    destruct (InterviewOrchestrator.updateHeartbeat _ _ _) as [r1 [res | e]];
      reflexivity.
Qed.

Lemma handle_reachable req now r : reachable r -> reachable (handle now req r).1.
Proof.
  intros Hr. destruct (handle_runs req now r) as [-> | [c ->]];
    [exact Hr | constructor; exact Hr].
Qed.

(** X28. Served from a store that calls of the orchestrator alone have
    filled, no request that carries the body fields its handler reads is
    answered with a 500: the reply is 201 for a start, and 200, 400 or 404
    for every other request; and the store the request leaves is again
    such a store. *)
Theorem requests_never_answered_500 (now : Z) (req : Request)
  (r : Repository) :
  reachable r ->
  reachable (handle now req r).1 /\
  reply_code (handle now req r).2 ∈ [200; 201; 400; 404] /\
  (reply_code (handle now req r).2 = 201 <->
   exists sessionId roleId, req = PostStart sessionId roleId).
Proof.
  intros Hreach. split; [apply handle_reachable, Hreach |].
  pose proof (reachable_sound r Hreach) as Hr.
  assert (forall c e, failure now c r = Some e ->
                      reply_code (InterviewController.handleError e) = 400 \/
                      reply_code (InterviewController.handleError e) = 404)
    as Hfail.
  { intros c e He. apply handleError_client.
    apply (run_good now c r Hr). exact He. }
  destruct req as [sid role | answerId k audioUrl durationMs | k | k | k | k
                  | | k]; cbn [handle snd addressed].
  - unfold InterviewController.startInterview.
    pose proof (started_state now sid InterviewController.mock_user_id role r)
      as Hstate.
    rewrite startInterview_steps in *. cbn [fst] in Hstate.
    cbn [start_id]. rewrite Hstate. cbn.
    split; [set_solver |]. split; [intros _; eauto | reflexivity].
  - unfold InterviewController.submitAnswer.
    pose proof (Hfail (SubmitAnswer answerId k audioUrl durationMs)) as He.
    pose proof (proj1 (run_good now
                         (SubmitAnswer answerId k audioUrl durationMs) r Hr))
      as Hr1.
    cbn [failure run] in He, Hr1.
    destruct (InterviewOrchestrator.submitAnswer now answerId k audioUrl
                durationMs r) as [r1 [res | e]]; cbn [fst snd] in *.
    + destruct (getState_on_sound k r1 Hr1) as [[state ->] | ->]; cbn;
        (split; [set_solver |]); split; intros H; try discriminate H;
        destruct H as (? & ? & H); discriminate H.
    + destruct (He e eq_refl) as [-> | ->];
        (split; [set_solver |]); split; intros H; try discriminate H;
        destruct H as (? & ? & H); discriminate H.
  - unfold InterviewController.getState.
    destruct (getState_on_sound k r Hr) as [[state ->] | ->]; cbn;
      (split; [set_solver |]); split; intros H; try discriminate H;
      destruct H as (? & ? & H); discriminate H.
  - unfold InterviewController.continue.
    pose proof (Hfail (Continue k)) as He. cbn [failure] in He.
    destruct (InterviewOrchestrator.continue now k r) as [r1 [res | e]];
      cbn [fst snd] in *;
      [| destruct (He e eq_refl) as [-> | ->]];
      (split; [set_solver |]); split; intros H; try discriminate H;
      destruct H as (? & ? & H); discriminate H.
  - unfold InterviewController.pause.
    pose proof (Hfail (Pause k)) as He. cbn [failure] in He.
    destruct (InterviewOrchestrator.pause now k r) as [r1 [res | e]];
      cbn [fst snd] in *;
      [| destruct (He e eq_refl) as [-> | ->]];
      (split; [set_solver |]); split; intros H; try discriminate H;
      destruct H as (? & ? & H); discriminate H.
  - unfold InterviewController.resume.
    pose proof (Hfail (Resume k)) as He. cbn [failure] in He.
    destruct (InterviewOrchestrator.resume now k r) as [r1 [res | e]];
      cbn [fst snd] in *;
      [| destruct (He e eq_refl) as [-> | ->]];
      (split; [set_solver |]); split; intros H; try discriminate H;
      destruct H as (? & ? & H); discriminate H.
  - unfold InterviewController.getActiveInterview.
    destruct (InterviewOrchestrator.getActiveInterview _ _ _); cbn;
      (split; [set_solver |]); split; intros H; try discriminate H;
      destruct H as (? & ? & H); discriminate H.
  - unfold InterviewController.heartbeat.
    pose proof (Hfail (UpdateHeartbeat k)) as He. cbn [failure] in He.
    destruct (InterviewOrchestrator.updateHeartbeat now k r)
      as [r1 [res | e]]; cbn [fst snd] in *;
      [| destruct (He e eq_refl) as [-> | ->]];
      (split; [set_solver |]); split; intros H; try discriminate H;
      destruct H as (? & ? & H); discriminate H.
Qed.

Lemma requests_never_answered_500_witness :
  reply_code (handle 5 (PostPause "s1") sample_paused).2
  ∈ [200; 201; 400; 404].
Proof.
  apply (requests_never_answered_500 5 (PostPause "s1") sample_paused).
  exact sample_paused_reachable.
Defined.

(** X29. A request that carries the body fields its handler reads (an
    answer request its audioUrl and durationMs; the state, continue,
    pause, resume and heartbeat requests read none) and whose path names
    an id that is not stored is answered with 404, the NotFound tag and
    the message of [handleError], and leaves the store as it is.  An
    answer request without a body is not a [Request]: the handler throws
    on it before the id is looked up. *)
Theorem request_for_missing_session (now : Z) (req : Request)
  (r : Repository) (k : string) :
  addressed req = Some k ->
  getById k r = None ->
  handle now req r
  = (r, mkReply 404 (BodyError NotFound (FixedMessage "Interview not found"))).
Proof.
  intros Hk Hget.
  destruct req as [sid role | answerId k' audioUrl durationMs | k' | k' | k'
                  | k' | | k']; cbn [addressed] in Hk; try discriminate Hk;
    injection Hk as ->; cbn [handle].
  - unfold InterviewController.submitAnswer, InterviewOrchestrator.submitAnswer.
    rewrite Hget. reflexivity.
  - unfold InterviewController.getState, InterviewOrchestrator.getState.
    rewrite Hget. reflexivity.
  - unfold InterviewController.continue, InterviewOrchestrator.continue.
    rewrite Hget. reflexivity.
  - unfold InterviewController.pause, InterviewOrchestrator.pause.
    rewrite next_missing by exact Hget. reflexivity.
  - unfold InterviewController.resume, InterviewOrchestrator.resume.
    rewrite Hget. reflexivity.
  - unfold InterviewController.heartbeat, InterviewOrchestrator.updateHeartbeat,
      InMemoryInterviewRepository.updateHeartbeat.
    rewrite Hget. reflexivity.
Qed.

Lemma request_for_missing_session_witness :
  reply_code
    (handle 1 (GetState "non-existent") InMemoryInterviewRepository.empty).2
  = 404.
Proof.
  rewrite (request_for_missing_session 1 (GetState "non-existent")
             InMemoryInterviewRepository.empty "non-existent");
    reflexivity.
Defined.

(** X30. A start request is answered with 201 on every store: the
    reply carries the drawn id, state QUESTION, the question screen, the
    first question and ten questions; the interview is filed as the
    active one of the mock user the handler acts for. *)
Theorem start_request_answered_201 (now : Z) (sessionId roleId : string)
  (r : Repository) :
  exists r' question,
    handle now (PostStart sessionId roleId) r
    = (r', mkReply 201
             (BodyStarted sessionId QUESTION QuestionScreen (Some question)
                10)) /\
    q_id question = "q1" /\
    activeInterviewByUser r' !! InterviewController.mock_user_id
    = Some sessionId /\
    (sessionId <> "" ->
     exists active,
       (handle now GetActive r').2 = mkReply 200 (BodyActive active) /\
       canResume active = true).
Proof.
  cbn [handle]. unfold InterviewController.startInterview.
  pose proof (started_state now sessionId InterviewController.mock_user_id
                roleId r) as Hstate.
  rewrite startInterview_steps in *. cbn [fst] in Hstate.
  cbn [start_id]. rewrite Hstate. do 2 eexists.
  split; [reflexivity |]. split; [reflexivity |].
  assert (activeInterviewByUser
            (save now
               (InterviewSession.transition now QUESTION
                  (InterviewSession.new now sessionId
                     InterviewController.mock_user_id roleId INTRO None 0 []
                     QuestionEngine.getTotalQuestions))
               (write_back sessionId
                  (InterviewSession.transition now QUESTION
                     (InterviewSession.new now sessionId
                        InterviewController.mock_user_id roleId INTRO None 0
                        [] QuestionEngine.getTotalQuestions))
                  (create
                     (InterviewSession.new now sessionId
                        InterviewController.mock_user_id roleId INTRO None 0
                        [] QuestionEngine.getTotalQuestions) r)))
          !! InterviewController.mock_user_id = Some sessionId) as Hptr.
  { rewrite activeInterviewByUser_save. cbn.
    rewrite decide_False by discriminate. apply lookup_insert_eq. }
  split; [exact Hptr |].
  intros Hid. cbn [handle snd].
  unfold InterviewController.getActiveInterview,
    InterviewOrchestrator.getActiveInterview, getActiveByUserId.
  rewrite Hptr, decide_False by exact Hid.
  rewrite getById_save, decide_True by reflexivity.
  eexists. split; [reflexivity |].
  unfold InterviewSession.isExpired. cbn.
  rewrite Z.sub_diag. reflexivity.
Qed.

End Controller.
